(** * A shallow embedding of the TikTok profile scraper

    The development follows the three source files:
    - [utils.py]: [RetryHandler.execute_with_retry], [clean_text],
      [format_number], [extract_video_id], [get_tiktok_profile_url];
    - [csv_exporter.py]: [CSVExporter._extract_video_id],
      [CSVExporter._process_video_data], [CSVExporter.add_video_data];
    - [scraper.py]: [TikTokScraper.scroll_and_load_videos], the list-view
      identifier of [extract_video_data], the crawl loop and the
      [try]/[except]/[finally] skeleton of [TikTokScraper.scrape_profile].

    Python values are modelled as follows.  A [str] is a [string] of ASCII
    characters; an [int] is a [Z]; a [float] is an IEEE 754 binary64 number,
    given by [spec_float] with precision 53 and maximal exponent 1024; a
    call that may raise returns an [outcome].  What the browser shows is not
    computed by the program: it is an oracle argument of the functions that
    consult it. *)

From Stdlib Require Import ZArith List Bool Ascii String Lia.
From Stdlib Require Import Floats.SpecFloat.
Import ListNotations.

Open Scope list_scope.
Open Scope string_scope.

(** ** Exceptions *)

Inductive exn : Type :=
| ValueError
| TypeError
| OverflowError
| IndexError
| RuntimeError (msg : string)
| KeyboardInterrupt
| CancelledError.

(** [except Exception] catches every class below [Exception];
    [KeyboardInterrupt] and [asyncio.CancelledError] derive from
    [BaseException] only. *)
Definition is_Exception (e : exn) : bool :=
  match e with
  | KeyboardInterrupt | CancelledError => false
  | _ => true
  end.

Inductive outcome (A : Type) : Type :=
| Return (a : A)
| Raise (e : exn).

Arguments Return {A} a.
Arguments Raise {A} e.

Definition bind {A B : Type} (m : outcome A) (k : A -> outcome B) : outcome B :=
  match m with
  | Return a => k a
  | Raise e => Raise e
  end.

Notation "x <- m ;; k" := (bind m (fun x => k))
  (at level 61, m at next level, right associativity).

(** [try: m except (ValueError, TypeError): handler] *)
Definition except_ValueError_TypeError {A : Type} (m : outcome A) (handler : outcome A) : outcome A :=
  match m with
  | Raise ValueError | Raise TypeError => handler
  | _ => m
  end.

(** [try: m except Exception: handler] *)
Definition except_Exception {A : Type} (m : outcome A) (handler : exn -> outcome A) : outcome A :=
  match m with
  | Raise e => if is_Exception e then handler e else Raise e
  | Return a => Return a
  end.

(** ** Built-in operations on [str] *)

Module Py.

Definition isdigit_c (c : ascii) : bool :=
  (Ascii.leb "0" c && Ascii.leb c "9")%char.

Definition digit_value (c : ascii) : Z :=
  Z.of_N (N_of_ascii c) - 48.

Definition islower_c (c : ascii) : bool :=
  (Ascii.leb "a" c && Ascii.leb c "z")%char.

Definition upper_c (c : ascii) : ascii :=
  if islower_c c then ascii_of_N (N_of_ascii c - 32) else c.

(** Whitespace of [str.split()] and [str.strip()]: tab, line feed, vertical
    tab, form feed, carriage return, the four separators 28 to 31, space. *)
Definition isspace_c (c : ascii) : bool :=
  let n := N_of_ascii c in
  ((9 <=? n) && (n <=? 13) || (28 <=? n) && (n <=? 32))%N.

(** Whitespace skipped by [float(str)] and [int(str)] around the number. *)
Definition isspace_num (c : ascii) : bool :=
  let n := N_of_ascii c in
  ((9 <=? n) && (n <=? 13) || (n =? 32))%N.

(** [s.upper()] *)
Fixpoint upper (s : string) : string :=
  match s with
  | EmptyString => EmptyString
  | String c s' => String (upper_c c) (upper s')
  end.

(** [s.startswith(p)] *)
Definition startswith (p s : string) : bool := prefix p s.

(** [sub in s] *)
Fixpoint contains (sub s : string) : bool :=
  prefix sub s ||
  match s with
  | EmptyString => false
  | String _ s' => contains sub s'
  end.

(** [s.replace(old, new)] for a non-empty [old]: occurrences are found from
    the left and do not overlap; [skip] counts the characters of the
    occurrence just replaced that are still to be dropped. *)
Fixpoint replace_go (old new : string) (skip : nat) (s : string) : string :=
  match s with
  | EmptyString => EmptyString
  | String c s' =>
      match skip with
      | S k => replace_go old new k s'
      | O =>
          if prefix old s
          then new ++ replace_go old new (String.length old - 1) s'
          else String c (replace_go old new 0 s')
      end
  end.

Definition replace (old new s : string) : string := replace_go old new 0 s.

(** [s.split(sep)] for a non-empty [sep]; [cur] is the piece being read. *)
Fixpoint split_go (sep : string) (skip : nat) (cur : string) (s : string) : list string :=
  match s with
  | EmptyString => [cur]
  | String c s' =>
      match skip with
      | S k => split_go sep k cur s'
      | O =>
          if prefix sep s
          then cur :: split_go sep (String.length sep - 1) EmptyString s'
          else split_go sep 0 (cur ++ String c EmptyString) s'
      end
  end.

Definition split (sep s : string) : list string := split_go sep 0 EmptyString s.

(** [s.split()]: the maximal runs of non-whitespace characters. *)
Fixpoint split_ws_go (cur : string) (s : string) : list string :=
  match s with
  | EmptyString => if (cur =? "")%string then [] else [cur]
  | String c s' =>
      if isspace_c c
      then (if (cur =? "")%string then split_ws_go "" s' else cur :: split_ws_go "" s')
      else split_ws_go (cur ++ String c EmptyString) s'
  end.

Definition split_ws (s : string) : list string := split_ws_go "" s.

(** [sep.join(parts)] *)
Definition join (sep : string) (parts : list string) : string := String.concat sep parts.

Fixpoint lstrip_by (sp : ascii -> bool) (s : string) : string :=
  match s with
  | String c s' => if sp c then lstrip_by sp s' else s
  | EmptyString => EmptyString
  end.

Fixpoint all_c (p : ascii -> bool) (s : string) : bool :=
  match s with
  | EmptyString => true
  | String c s' => p c && all_c p s'
  end.

Fixpoint rstrip_by (sp : ascii -> bool) (s : string) : string :=
  match s with
  | EmptyString => EmptyString
  | String c s' => if all_c sp s then EmptyString else String c (rstrip_by sp s')
  end.

(** [s.strip()] *)
Definition strip (s : string) : string := rstrip_by isspace_c (lstrip_by isspace_c s).

(** [s.isdigit()]: non-empty and made of decimal digits. *)
Definition isdigit (s : string) : bool :=
  negb (s =? "")%string && all_c isdigit_c s.

(** [len(s)] *)
Definition len (s : string) : Z := Z.of_nat (String.length s).

(** *** Floats *)

Definition float : Type := spec_float.

Definition prec : Z := 53.
Definition emax : Z := 1024.

(** [float(n)] for an integer [n] *)
Definition float_of_int (n : Z) : float := binary_normalize prec emax n 0 false.

(** [x * y] on floats *)
Definition fmul (x y : float) : float := SFmul prec emax x y.

(** [x * n] for a float [x] and an integer [n]: [n] is turned into a float
    first, which raises [OverflowError] when [n] is too large for one. *)
Definition fmul_int (x : float) (n : Z) : outcome float :=
  match float_of_int n with
  | S754_infinity _ => Raise OverflowError
  | y => Return (fmul x y)
  end.

(** The binary64 number nearest to [d * 10 ^ e] (ties to even), as
    [float(str)] computes it from the decimal digits [d] and the decimal
    exponent [e]. *)
Definition float_of_decimal (neg : bool) (d : Z) (e : Z) : float :=
  match d with
  | Z0 => S754_zero neg
  | Zpos p =>
      if (0 <=? e)%Z
      then binary_normalize prec emax ((if neg then Z.opp else fun z => z) (d * 10 ^ e)%Z) 0 false
      else SFdiv prec emax (S754_finite neg p 0) (S754_finite false (Z.to_pos (10 ^ (- e))) 0)
  | Zneg _ => S754_nan
  end.

(** [int(x)] for a float [x]: truncation towards zero. *)
Definition int_of_float (x : float) : outcome Z :=
  match x with
  | S754_zero _ => Return 0%Z
  | S754_infinity _ => Raise OverflowError
  | S754_nan => Raise ValueError
  | S754_finite s m e =>
      let a := (if (0 <=? e)%Z then Z.pos m * 2 ^ e else Z.pos m / 2 ^ (- e))%Z in
      Return (if s then (- a)%Z else a)
  end.

(** *** Reading numbers *)

(** Underscores of a numeric literal: each one stands between two digits.
    [prev] is the character before [s]. *)
Fixpoint strip_underscores (prev : option ascii) (s : string) : option string :=
  match s with
  | EmptyString =>
      match prev with
      | Some "_"%char => None
      | _ => Some EmptyString
      end
  | String c s' =>
      if (c =? "_")%char
      then
        match prev with
        | Some p => if isdigit_c p then strip_underscores (Some c) s' else None
        | None => None
        end
      else
        match prev with
        | Some "_"%char =>
            if isdigit_c c then option_map (String c) (strip_underscores (Some c) s') else None
        | _ => option_map (String c) (strip_underscores (Some c) s')
        end
  end.

(** The longest run of decimal digits at the head of [s]: its value on top of
    [acc], the number of digits on top of [n], and what follows. *)
Fixpoint scan_digits (acc : Z) (n : nat) (s : string) : Z * nat * string :=
  match s with
  | String c s' =>
      if isdigit_c c then scan_digits (10 * acc + digit_value c)%Z (S n) s' else (acc, n, s)
  | EmptyString => (acc, n, s)
  end.

(** An optional sign: whether it is a minus, and what follows. *)
Definition scan_sign (s : string) : bool * string :=
  match s with
  | String "-"%char r => (true, r)
  | String "+"%char r => (false, r)
  | _ => (false, s)
  end.

(** An optional exponent part [e[+-]digits]; without digits after the [e]
    nothing is read. *)
Definition scan_exponent (s : string) : Z * string :=
  match s with
  | String c r =>
      if ((c =? "e") || (c =? "E"))%char
      then
        let '(neg, r1) := scan_sign r in
        let '(v, n, r2) := scan_digits 0 0 r1 in
        match n with
        | O => (0%Z, s)
        | S _ => ((if neg then (- v)%Z else v), r2)
        end
      else (0%Z, s)
  | EmptyString => (0%Z, s)
  end.

(** [float(text)]; [ValueError] when [text] is not a float literal. *)
Definition py_float (text : string) : outcome float :=
  match strip_underscores None text with
  | None => Raise ValueError
  | Some s =>
      let '(neg, s0) := scan_sign (lstrip_by isspace_num s) in
      let word := upper (rstrip_by isspace_num s0) in
      if ((word =? "INF") || (word =? "INFINITY"))%string then Return (S754_infinity neg)
      else if (word =? "NAN")%string then Return S754_nan
      else
        let '(ip, ni, s1) := scan_digits 0 0 s0 in
        let '(fp, nf, s2) :=
          match s1 with
          | String "."%char r => scan_digits ip 0 r
          | _ => (ip, O, s1)
          end in
        match (ni + nf)%nat with
        | O => Raise ValueError
        | S _ =>
            let '(ex, s3) := scan_exponent s2 in
            if all_c isspace_num s3
            then Return (float_of_decimal neg fp (ex - Z.of_nat nf))
            else Raise ValueError
        end
  end.

(** [int(text)] in base ten; [ValueError] when [text] is not an integer
    literal. *)
Definition py_int (text : string) : outcome Z :=
  match strip_underscores None text with
  | None => Raise ValueError
  | Some s =>
      let '(neg, s0) := scan_sign (lstrip_by isspace_num s) in
      let '(v, n, s1) := scan_digits 0 0 s0 in
      match n with
      | O => Raise ValueError
      | S _ => if all_c isspace_num s1 then Return (if neg then (- v)%Z else v) else Raise ValueError
      end
  end.

End Py.

(** ** utils.py *)

Module Utils.

Import Py.

(** [format_number(text)] *)
Definition format_number (text : string) : outcome Z :=
  if (text =? "")%string then Return 0%Z
  else
    let text := replace " " "" (replace "," "" (upper text)) in
    except_ValueError_TypeError
      (if contains "K" text then
         x <- py_float (replace "K" "" text) ;;
         int_of_float (fmul x (float_of_int 1000))
       else if contains "M" text then
         x <- py_float (replace "M" "" text) ;;
         int_of_float (fmul x (float_of_int 1000000))
       else if contains "B" text then
         x <- py_float (replace "B" "" text) ;;
         int_of_float (fmul x (float_of_int 1000000000))
       else py_int text)
      (Return 0%Z).

(** [clean_text(text)] *)
Definition clean_text (text : string) : string :=
  if (text =? "")%string then ""
  else strip (join " " (split_ws text)).

(** [extract_video_id(url)]; [None] is Python's [None]. *)
Definition extract_video_id (url : string) : option string :=
  if (url =? "")%string then None
  else
    let attempt : outcome (option string) :=
      if contains "/video/" url then
        match nth_error (split "/video/" url) 1 with
        | Some part =>
            match nth_error (split "?" part) 0 with
            | Some id => Return (Some id)
            | None => Raise IndexError
            end
        | None => Raise IndexError
        end
      else if contains "tiktok.com" url && contains "/" url then
        Return (find (fun part => isdigit part && (10 <? len part)%Z) (split "/" url))
      else Return None in
    match attempt with
    | Return (Some id) => Some id
    | _ => None
    end.

(** [get_tiktok_profile_url(username)] *)
Definition get_tiktok_profile_url (username : string) : string :=
  let username := replace "@" "" username in
  "https://www.tiktok.com/@" ++ username.

(** *** RetryHandler *)

(** What [execute_with_retry] does to the outside, in order: the calls of
    the wrapped operation, numbered from 0, and the calls of
    [asyncio.sleep], with their delay. *)
Inductive retry_event : Type :=
| Invoked (attempt : nat)
| Slept (delay : float).

(** The [for attempt in range(self.max_retries)] loop, with [remaining]
    iterations to go.  [func k] is what the [k]-th call of the wrapped
    operation does; [sleep k] is what the sleep after the failed call [k]
    raises, if anything.  What is raised inside the handler, by the product
    [self.base_delay * (2 ** attempt)] or by the sleep, leaves the
    function. *)
Fixpoint retry_loop {A : Type} (max_retries : Z) (base_delay : float)
  (func : nat -> outcome A) (sleep : nat -> option exn) (remaining : nat) (attempt : nat)
  (last_exception : option exn) : outcome A * list retry_event :=
  match remaining with
  | O =>
      (match last_exception with
       | Some e => Raise e
       | None => Raise TypeError
       end, [])
  | S remaining' =>
      match func attempt with
      | Return a => (Return a, [Invoked attempt])
      | Raise e =>
          if is_Exception e then
            if (Z.of_nat attempt <? max_retries - 1)%Z then
              match fmul_int base_delay (2 ^ Z.of_nat attempt) with
              | Raise overflow => (Raise overflow, [Invoked attempt])
              | Return delay =>
                  match sleep attempt with
                  | Some interrupt => (Raise interrupt, [Invoked attempt; Slept delay])
                  | None =>
                      let '(r, tr) :=
                        retry_loop max_retries base_delay func sleep remaining'
                          (S attempt) (Some e) in
                      (r, Invoked attempt :: Slept delay :: tr)
                  end
              end
            else
              let '(r, tr) :=
                retry_loop max_retries base_delay func sleep remaining'
                  (S attempt) (Some e) in
              (r, Invoked attempt :: tr)
          else (Raise e, [Invoked attempt])
      end
  end.

(** [RetryHandler(max_retries, base_delay).execute_with_retry(func)], the
    sleeps doing what [sleep] says. *)
Definition execute_with_retry_under {A : Type} (sleep : nat -> option exn)
  (max_retries : Z) (base_delay : float) (func : nat -> outcome A)
  : outcome A * list retry_event :=
  retry_loop max_retries base_delay func sleep (Z.to_nat max_retries) 0 None.

(** [RetryHandler(max_retries, base_delay).execute_with_retry(func)] when
    no sleep raises. *)
Definition execute_with_retry {A : Type} (max_retries : Z) (base_delay : float)
  (func : nat -> outcome A) : outcome A * list retry_event :=
  execute_with_retry_under (fun _ => None) max_retries base_delay func.

(** The part of [Config] the modelled code reads. *)
Record config : Type := {
  tiktok_username : string;
  max_videos : Z
}.

End Utils.

(** ** csv_exporter.py *)

Module CsvExporter.

Import Py Utils.

(** The dictionary that the scraper hands to the exporter: every value is
    text. *)
Record raw_video : Type := {
  raw_video_id : string;
  raw_video_url : string;
  raw_description : string;
  raw_thumbnail_url : string;
  raw_views_count : string;
  raw_likes_count : string;
  raw_comments_count : string;
  raw_scraped_at : string;
  raw_account_username : string
}.

(** A row of [CSVExporter.data]. *)
Record video_record : Type := {
  video_id : string;
  video_url : string;
  description : string;
  thumbnail_url : string;
  views_count : Z;
  likes_count : Z;
  comments_count : Z;
  scraped_at : string;
  account_username : string
}.

(** [CSVExporter._extract_video_id(url)] *)
Definition _extract_video_id (url : string) : string :=
  if (url =? "")%string then ""
  else
    let attempt : outcome (option string) :=
      if contains "/video/" url then
        match nth_error (split "/video/" url) 1 with
        | Some part =>
            match nth_error (split "?" part) 0 with
            | Some video_id => Return (Some video_id)
            | None => Raise IndexError
            end
        | None => Raise IndexError
        end
      else if contains "tiktok.com" url then
        Return (find (fun part => isdigit part && (10 <? len part)%Z) (split "/" url))
      else Return None in
    match attempt with
    | Return (Some id) => id
    | _ => ""
    end.

(** [CSVExporter._process_video_data(raw_data)]; [now] is
    [datetime.now().isoformat()]. *)
Definition _process_video_data (cfg : config) (now : string) (raw_data : raw_video)
  : outcome video_record :=
  let id := _extract_video_id (raw_video_url raw_data) in
  let desc := clean_text (raw_description raw_data) in
  views <- format_number (raw_views_count raw_data) ;;
  likes <- format_number (raw_likes_count raw_data) ;;
  comments <- format_number (raw_comments_count raw_data) ;;
  Return {|
    video_id := id;
    video_url := raw_video_url raw_data;
    description := desc;
    thumbnail_url := raw_thumbnail_url raw_data;
    views_count := views;
    likes_count := likes;
    comments_count := comments;
    scraped_at := now;
    account_username := tiktok_username cfg
  |}.

(** [CSVExporter.add_video_data(video_data)] on the rows [data]: the rows
    afterwards and the returned flag. *)
Definition add_video_data (cfg : config) (now : string) (data : list video_record)
  (video_data : raw_video) : list video_record * bool :=
  if (raw_video_url video_data =? "")%string then (data, false)
  else
    match _process_video_data cfg now video_data with
    | Return processed_data => ((data ++ [processed_data])%list, true)
    | Raise _ => (data, false)
    end.

(** The dictionary that [get_stats] returns: the three averages are there
    only when there are rows. *)
Record stats : Type := {
  total_videos : Z;
  total_views : Z;
  total_likes : Z;
  total_comments : Z;
  avg_views : option Z;
  avg_likes : option Z;
  avg_comments : option Z
}.

(** [sum(video.get(field, 0) for video in self.data)] *)
Definition total (field : video_record -> Z) (data : list video_record) : Z :=
  fold_left (fun acc video => (acc + field video)%Z) data 0%Z.

(** [CSVExporter.get_stats()]; [//] is the division that rounds down. *)
Definition get_stats (data : list video_record) : stats :=
  match data with
  | [] =>
      {| total_videos := 0; total_views := 0; total_likes := 0; total_comments := 0;
         avg_views := None; avg_likes := None; avg_comments := None |}
  | _ :: _ =>
      let n := Z.of_nat (List.length data) in
      {| total_videos := n;
         total_views := total views_count data;
         total_likes := total likes_count data;
         total_comments := total comments_count data;
         avg_views := Some (total views_count data / n)%Z;
         avg_likes := Some (total likes_count data / n)%Z;
         avg_comments := Some (total comments_count data / n)%Z |}
  end.

End CsvExporter.

(** ** scraper.py *)

Module Scraper.

Import Py Utils CsvExporter.

(** *** Pagination *)

(** One iteration of the loop of [scroll_and_load_videos] as the page
    answers it: the two measurements [len(get_visible_video_elements())],
    before and after the scroll, or the exception of an awaited call. *)
Inductive scan_obs : Type :=
| Scan (initial_count final_count : nat)
| ScanRaised (e : exn).

Definition max_no_new_videos : nat := 3.

Record loop_state : Type := {
  videos_loaded : nat;
  no_new_videos_count : nat
}.

(** The loop condition. *)
Definition loop_guard (max_videos : Z) (s : loop_state) : bool :=
  (Z.of_nat (videos_loaded s) <? max_videos)%Z
  && (no_new_videos_count s <? max_no_new_videos)%nat.

(** The [if final_count > initial_count: ... else: ...] of the body. *)
Definition scan_update (s : loop_state) (initial_count final_count : nat) : loop_state :=
  if (initial_count <? final_count)%nat
  then {| videos_loaded := final_count; no_new_videos_count := 0 |}
  else {| videos_loaded := videos_loaded s; no_new_videos_count := S (no_new_videos_count s) |}.

(** What a run of [scroll_and_load_videos] gives: the value returned (or
    the exception that is not caught), the number of completed scans and
    the stall counter at the end. *)
Record scroll_run : Type := {
  scroll_result : outcome nat;
  scroll_scans : nat;
  scroll_stalls : nat
}.

(** The [while] loop; [k] scans are done.  [None]: the loop is still
    running after [fuel] iterations. *)
Fixpoint scroll_loop (max_videos : Z) (feed : nat -> scan_obs) (fuel : nat)
  (k : nat) (s : loop_state) : option scroll_run :=
  match fuel with
  | O => None
  | S fuel' =>
      if loop_guard max_videos s then
        match feed k with
        | Scan initial_count final_count =>
            scroll_loop max_videos feed fuel' (S k) (scan_update s initial_count final_count)
        | ScanRaised e =>
            Some {| scroll_result := (if is_Exception e then Return 0%nat else Raise e);
                    scroll_scans := k;
                    scroll_stalls := no_new_videos_count s |}
        end
      else
        Some {| scroll_result := Return (videos_loaded s);
                scroll_scans := k;
                scroll_stalls := no_new_videos_count s |}
  end.

(** [TikTokScraper.scroll_and_load_videos()] *)
Definition scroll_and_load_videos (max_videos : Z) (feed : nat -> scan_obs) (fuel : nat)
  : option scroll_run :=
  scroll_loop max_videos feed fuel 0 {| videos_loaded := 0; no_new_videos_count := 0 |}.

(** *** Extraction of one item *)

(** What the selectors find in one grid element. *)
Record element : Type := {
  el_video_url : option string;   (* extract_video_url *)
  el_views : string;              (* extract_views_from_grid *)
  el_thumbnail : string           (* extract_thumbnail *)
}.

(** What [extract_data_from_individual_video] returns. *)
Record detail : Type := {
  d_description : string;
  d_likes_count : string;
  d_comments_count : string
}.

(** The list-view identifier: [video_url.split('/')[-1]]. *)
Definition grid_video_id (video_url : string) : string :=
  last (split "/" video_url) "".

(** [TikTokScraper.extract_video_data(video_element)] *)
Definition extract_video_data (cfg : config) (now : string) (el : element) : option raw_video :=
  match el_video_url el with
  | None => None
  | Some video_url =>
      if (video_url =? "")%string then None
      else Some {|
        raw_video_id := grid_video_id video_url;
        raw_video_url := video_url;
        raw_description := "";
        raw_thumbnail_url := el_thumbnail el;
        raw_views_count := el_views el;
        raw_likes_count := "0";
        raw_comments_count := "0";
        raw_scraped_at := now;
        raw_account_username := tiktok_username cfg
      |}
  end.

(** *** The crawl loop *)

(** Iteration [i] of the [for i in range(config.max_videos)] loop as the
    page answers it. *)
Inductive item_obs : Type :=
| NoElement                      (* i >= len(current_video_elements) *)
| AwaitRaised (e : exn)          (* an awaited call raised before the item was looked at *)
| Element (el : element) (additional_data : detail) (slept : option exn).
                                 (* the grid element, its own page, and the closing sleep *)

Record crawl_state : Type := {
  scraped_videos : list string;          (* self.scraped_videos *)
  data : list video_record;              (* self.csv_exporter.data *)
  scraped_count : nat
}.

(** [url in self.scraped_videos] *)
Definition mem (url : string) (urls : list string) : bool :=
  existsb (String.eqb url) urls.

(** The [if video_data and video_data.get('video_url'): ...] block. *)
Definition commit_item (cfg : config) (now : string) (st : crawl_state)
  (video_data : option raw_video) (additional_data : detail) : crawl_state :=
  match video_data with
  | None => st
  | Some vd =>
      if (raw_video_url vd =? "")%string then st
      else if mem (raw_video_url vd) (scraped_videos st) then st
      else
        let vd' := {|
          raw_video_id := raw_video_id vd;
          raw_video_url := raw_video_url vd;
          raw_description := d_description additional_data;
          raw_thumbnail_url := raw_thumbnail_url vd;
          raw_views_count := raw_views_count vd;
          raw_likes_count := d_likes_count additional_data;
          raw_comments_count := d_comments_count additional_data;
          raw_scraped_at := raw_scraped_at vd;
          raw_account_username := raw_account_username vd
        |} in
        {| scraped_videos := (scraped_videos st ++ [raw_video_url vd])%list;
           data := fst (add_video_data cfg now (data st) vd');
           scraped_count := S (scraped_count st) |}
  end.

(** The loop, with [remaining] iterations to go from index [i]; [clock i]
    is the time read in iteration [i].  The second component is the
    exception that leaves the loop, if any. *)
Fixpoint crawl_loop (cfg : config) (clock : nat -> string) (items : nat -> item_obs)
  (remaining : nat) (i : nat) (st : crawl_state) : crawl_state * option exn :=
  match remaining with
  | O => (st, None)
  | S remaining' =>
      match items i with
      | NoElement => (st, None)
      | AwaitRaised e =>
          if is_Exception e
          then crawl_loop cfg clock items remaining' (S i) st
          else (st, Some e)
      | Element el additional_data slept =>
          let st' := commit_item cfg (clock i) st
                       (extract_video_data cfg (clock i) el) additional_data in
          match slept with
          | None => crawl_loop cfg clock items remaining' (S i) st'
          | Some e =>
              if is_Exception e
              then crawl_loop cfg clock items remaining' (S i) st'
              else (st', Some e)
          end
      end
  end.

(** *** scrape_profile *)

(** The calls on the browser that [scrape_profile] makes. *)
Inductive call : Type :=
| CallStartBrowser
| CallNavigate
| CallScroll
| CallGetElements
| CallSaveCsv
| CallCloseBrowser.

(** Everything outside the program that a run of [scrape_profile]
    consults. *)
Record world : Type := {
  start_browser_obs : outcome unit;    (* start_browser re-raises what it catches *)
  navigate_obs : outcome bool;         (* navigate_to_profile *)
  feed : nat -> scan_obs;              (* the page under scroll_and_load_videos *)
  elements_obs : outcome unit;         (* get_visible_video_elements, for the log line *)
  items : nat -> item_obs;             (* the page under the crawl loop *)
  clock : nat -> string;
  close_obs : option exn               (* what closing the context and browser raises *)
}.

Record scraper : Type := {
  crawl : crawl_state;
  calls : list call
}.

Definition called (c : call) (sc : scraper) : scraper :=
  {| crawl := crawl sc; calls := (calls sc ++ [c])%list |}.

(** [TikTokScraper.close_browser()]: an [Exception] is logged, anything
    else goes through. *)
Definition close_browser (w : world) (sc : scraper) : outcome unit * scraper :=
  let sc := called CallCloseBrowser sc in
  match close_obs w with
  | Some e => if is_Exception e then (Return tt, sc) else (Raise e, sc)
  | None => (Return tt, sc)
  end.

(** The statements between [try:] and [except Exception] of
    [scrape_profile].  [None]: the pagination loop has not finished within
    [fuel] iterations. *)
Definition scrape_profile_try (cfg : config) (w : world) (fuel : nat) (sc : scraper)
  : option (outcome bool * scraper) :=
  let sc := called CallStartBrowser sc in
  match start_browser_obs w with
  | Raise e => Some (Raise e, sc)
  | Return _ =>
      let sc := called CallNavigate sc in
      match navigate_obs w with
      | Raise e => Some (Raise e, sc)
      | Return false => Some (Return false, sc)
      | Return true =>
          let sc := called CallScroll sc in
          match scroll_and_load_videos (max_videos cfg) (feed w) fuel with
          | None => None
          | Some run =>
              match scroll_result run with
              | Raise e => Some (Raise e, sc)
              | Return total_videos =>
                  if (total_videos =? 0)%nat then Some (Return false, sc)
                  else
                    let sc := called CallGetElements sc in
                    match elements_obs w with
                    | Raise e => Some (Raise e, sc)
                    | Return _ =>
                        let st0 := {| scraped_videos := scraped_videos (crawl sc);
                                      data := data (crawl sc);
                                      scraped_count := 0 |} in
                        let '(st, escaped) :=
                          crawl_loop cfg (clock w) (items w)
                            (Z.to_nat (max_videos cfg)) 0 st0 in
                        let sc := {| crawl := st; calls := calls sc |} in
                        match escaped with
                        | Some e => Some (Raise e, sc)
                        | None =>
                            match data st with
                            | [] => Some (Return false, sc)
                            | _ :: _ => Some (Return true, called CallSaveCsv sc)
                            end
                        end
                    end
              end
          end
      end
  end.

(** [TikTokScraper.scrape_profile(username)]: the [try] block, the
    [except Exception] handler that returns [False], and the [finally]
    clause that closes the browser. *)
Definition scrape_profile (cfg : config) (w : world) (fuel : nat) (sc : scraper)
  : option (outcome bool * scraper) :=
  match scrape_profile_try cfg w fuel sc with
  | None => None
  | Some (r, sc1) =>
      let r1 := except_Exception r (fun _ => Return false) in
      let '(c, sc2) := close_browser w sc1 in
      Some (match c with
            | Raise e => Raise e
            | Return _ => r1
            end, sc2)
  end.

(** The scraper that [TikTokScraper()] builds. *)
Definition new_scraper : scraper :=
  {| crawl := {| scraped_videos := []; data := []; scraped_count := 0 |}; calls := [] |}.

(** *** The page as the selectors see it *)

(** A handle on an element of the page: its text, its attributes and the
    elements that a selector finds below it.  Each call may raise.  The
    page is taken as it stands during one extraction: asked twice, a
    selector finds the same thing. *)
#[warnings="-register-all"]
Inductive node : Type :=
| Node (text : outcome string)
       (attribute : string -> outcome (option string))
       (query : string -> outcome (option node)).

(** [await n.inner_text()] *)
Definition inner_text (n : node) : outcome string :=
  match n with Node text _ _ => text end.

(** [await n.get_attribute(name)] *)
Definition get_attribute (n : node) (name : string) : outcome (option string) :=
  match n with Node _ attribute _ => attribute name end.

(** [await n.query_selector(selector)] *)
Definition query_selector (n : node) (selector : string) : outcome (option node) :=
  match n with Node _ _ query => query selector end.

(** The double quote, and a text between double quotes. *)
Definition dq : string := String "034"%char EmptyString.

Definition quoted (s : string) : string := dq ++ s ++ dq.

(** [any(char.isdigit() for char in text)] *)
Definition has_digit (text : string) : bool :=
  negb (all_c (fun c => negb (isdigit_c c)) text).

(** The loop shared by the text extractors: the stripped text of the first
    selector whose element has a usable text. *)
Fixpoint first_text (usable : string -> bool) (root : string -> outcome (option node))
  (selectors : list string) : outcome (option string) :=
  match selectors with
  | [] => Return None
  | selector :: rest =>
      found <- root selector ;;
      match found with
      | Some el =>
          text <- inner_text el ;;
          if usable text then Return (Some (strip text))
          else first_text usable root rest
      | None => first_text usable root rest
      end
  end.

(** [text and text.strip()] *)
Definition usable_text (text : string) : bool :=
  negb (text =? "")%string && negb (strip text =? "")%string.

(** [text and any(char.isdigit() for char in text)] *)
Definition usable_count (text : string) : bool :=
  negb (text =? "")%string && has_digit text.

Definition or_default (default : string) (found : option string) : string :=
  match found with
  | Some text => text
  | None => default
  end.

Definition link_selectors : list string :=
  [ "a[href*=" ++ quoted "/video/" ++ "]";
    "[data-e2e=" ++ quoted "video-link" ++ "]";
    "a[href*=" ++ quoted "tiktok.com" ++ "]" ].

Fixpoint extract_video_url_loop (element : node) (selectors : list string)
  : outcome (option string) :=
  match selectors with
  | [] => Return None
  | selector :: rest =>
      link_element <- query_selector element selector ;;
      match link_element with
      | Some link =>
          href <- get_attribute link "href" ;;
          match href with
          | Some h =>
              if negb (h =? "")%string && contains "/video/" h
              then Return (Some (if startswith "/" h then "https://www.tiktok.com" ++ h else h))
              else extract_video_url_loop element rest
          | None => extract_video_url_loop element rest
          end
      | None => extract_video_url_loop element rest
      end
  end.

(** [TikTokScraper.extract_video_url(element)] *)
Definition extract_video_url (element : node) : outcome (option string) :=
  except_Exception (extract_video_url_loop element link_selectors) (fun _ => Return None).

Definition desc_selectors : list string :=
  [ "[data-e2e=" ++ quoted "browse-video-desc" ++ "]";
    "[data-e2e=" ++ quoted "video-desc" ++ "]";
    ".tiktok-1g04lal-DivItemContainer span";
    "[data-e2e=" ++ quoted "user-post-item-desc" ++ "]" ].

(** [TikTokScraper.extract_description(element)] *)
Definition extract_description (element : node) : outcome string :=
  except_Exception
    (found <- first_text usable_text (query_selector element) desc_selectors ;;
     Return (or_default "" found))
    (fun _ => Return "").

(** [TikTokScraper.extract_description_from_video()] on the page [page] *)
Definition extract_description_from_video (page : string -> outcome (option node))
  : outcome string :=
  except_Exception
    (found <- first_text usable_text page desc_selectors ;;
     Return (or_default "" found))
    (fun _ => Return "").

Definition img_selectors : list string :=
  [ "img[data-e2e=" ++ quoted "video-cover" ++ "]";
    "img[alt*=" ++ quoted "video" ++ "]";
    "img" ].

Fixpoint extract_thumbnail_loop (element : node) (selectors : list string)
  : outcome (option string) :=
  match selectors with
  | [] => Return None
  | selector :: rest =>
      img_element <- query_selector element selector ;;
      match img_element with
      | Some img =>
          src <- get_attribute img "src" ;;
          match src with
          | Some u =>
              if negb (u =? "")%string && (contains "tiktok" u || contains "amazonaws" u)
              then Return (Some u)
              else extract_thumbnail_loop element rest
          | None => extract_thumbnail_loop element rest
          end
      | None => extract_thumbnail_loop element rest
      end
  end.

(** [TikTokScraper.extract_thumbnail(element)] *)
Definition extract_thumbnail (element : node) : outcome string :=
  except_Exception
    (found <- extract_thumbnail_loop element img_selectors ;;
     Return (or_default "" found))
    (fun _ => Return "").

Definition view_selectors : list string :=
  [ "[data-e2e=" ++ quoted "video-views" ++ "]";
    ".video-count";
    "strong.video-count";
    "[data-e2e=" ++ quoted "like-count" ++ "]";
    "strong" ].

(** [TikTokScraper.extract_views_from_grid(element)]: the element itself,
    then its parent. *)
Definition extract_views_from_grid (element : node) : outcome string :=
  except_Exception
    (found <- first_text usable_count (query_selector element) view_selectors ;;
     match found with
     | Some text => Return text
     | None =>
         parent <- query_selector element "xpath=.." ;;
         match parent with
         | Some p =>
             found <- first_text usable_count (query_selector p) view_selectors ;;
             Return (or_default "0" found)
         | None => Return "0"
         end
     end)
    (fun _ => Return "0").

Definition like_selectors : list string :=
  [ "[data-e2e=" ++ quoted "browse-like-count" ++ "]";
    "[data-e2e=" ++ quoted "like-count" ++ "]";
    "[data-e2e=" ++ quoted "video-views" ++ "]";
    "strong" ].

Definition comment_selectors : list string :=
  [ "[data-e2e=" ++ quoted "browse-comment-count" ++ "]";
    "[data-e2e=" ++ quoted "comment-count" ++ "]";
    "[data-e2e=" ++ quoted "video-views" ++ "]";
    "strong" ].

(** The body shared by [extract_likes], [extract_comments] and their
    [_from_video] variants. *)
Definition extract_count (root : string -> outcome (option node)) (selectors : list string)
  : outcome string :=
  except_Exception
    (found <- first_text usable_count root selectors ;;
     Return (or_default "0" found))
    (fun _ => Return "0").

(** [TikTokScraper.extract_likes(element)] *)
Definition extract_likes (element : node) : outcome string :=
  extract_count (query_selector element) like_selectors.

(** [TikTokScraper.extract_comments(element)] *)
Definition extract_comments (element : node) : outcome string :=
  extract_count (query_selector element) comment_selectors.

(** [TikTokScraper.extract_likes_from_video()] *)
Definition extract_likes_from_video (page : string -> outcome (option node)) : outcome string :=
  extract_count page like_selectors.

(** [TikTokScraper.extract_comments_from_video()] *)
Definition extract_comments_from_video (page : string -> outcome (option node))
  : outcome string :=
  extract_count page comment_selectors.

(** [TikTokScraper.extract_data_from_individual_video(video_url)]: [goto]
    is what going to the video (and the wait after it) does, [page] is the
    video page, [go_back] is what going back (and the wait after it)
    does. *)
Definition extract_data_from_individual_video (goto : outcome unit)
  (page : string -> outcome (option node)) (go_back : outcome unit) : outcome detail :=
  except_Exception
    (_ <- goto ;;
     description <- extract_description_from_video page ;;
     likes <- extract_likes_from_video page ;;
     comments <- extract_comments_from_video page ;;
     _ <- go_back ;;
     Return {| d_description := description;
               d_likes_count := likes;
               d_comments_count := comments |})
    (fun _ => Return {| d_description := ""; d_likes_count := "0"; d_comments_count := "0" |}).

(** [TikTokScraper.extract_video_data(video_element)] on the element
    itself. *)
Definition extract_video_data_of_node (cfg : config) (now : string) (video_element : node)
  : outcome (option raw_video) :=
  except_Exception
    (video_url <- extract_video_url video_element ;;
     match video_url with
     | None => Return None
     | Some url =>
         if (url =? "")%string then Return None
         else
           views_count <- extract_views_from_grid video_element ;;
           thumbnail <- extract_thumbnail video_element ;;
           Return (Some {|
             raw_video_id := grid_video_id url;
             raw_video_url := url;
             raw_description := "";
             raw_thumbnail_url := thumbnail;
             raw_views_count := views_count;
             raw_likes_count := "0";
             raw_comments_count := "0";
             raw_scraped_at := now;
             raw_account_username := tiktok_username cfg
           |})
     end)
    (fun _ => Return None).

Definition video_selectors : list string :=
  [ "[data-e2e=" ++ quoted "user-post-item" ++ "]";
    "[data-e2e=" ++ quoted "user-post-item-desc" ++ "]";
    ".tiktok-1g04lal-DivItemContainer";
    "[data-e2e=" ++ quoted "video-feed-item" ++ "]";
    "div[class*=" ++ quoted "DivItemContainer" ++ "]";
    "div[class*=" ++ quoted "DivItemContainer" ++ "]";
    "div[data-e2e=" ++ quoted "user-post-item" ++ "]" ].

Fixpoint first_elements (query_selector_all : string -> outcome (list node))
  (selectors : list string) : outcome (list node) :=
  match selectors with
  | [] => Return []
  | selector :: rest =>
      elements <- query_selector_all selector ;;
      match elements with
      | [] => first_elements query_selector_all rest
      | _ :: _ => Return elements
      end
  end.

(** [TikTokScraper.get_visible_video_elements()] *)
Definition get_visible_video_elements (query_selector_all : string -> outcome (list node))
  : outcome (list node) :=
  except_Exception (first_elements query_selector_all video_selectors) (fun _ => Return []).

End Scraper.

Import Py Utils CsvExporter Scraper.

(** ** Specification-level definitions *)

(** [s] without the occurrences of the character [c]. *)
Fixpoint without_char (c : ascii) (s : string) : string :=
  match s with
  | EmptyString => EmptyString
  | String a s' => if (a =? c)%char then without_char c s' else String a (without_char c s')
  end.

(** The events of a run in which the first [n] calls fail and are retried:
    call [k] is followed by a sleep of [base_delay * 2 ** k]. *)
Fixpoint retried (base_delay : float) (from n : nat) : list retry_event :=
  match n with
  | O => []
  | S n' =>
      Invoked from :: Slept (fmul base_delay (float_of_int (2 ^ Z.of_nat from)))
        :: retried base_delay (S from) n'
  end.

(** The text that [format_number] hands to [float] or [int]. *)
Definition normalized (text : string) : string :=
  replace " " "" (replace "," "" (upper text)).

(** The characters other than the minus sign. *)
Definition not_minus (c : ascii) : bool := negb (c =? "-")%char.

(** A float whose sign bit is clear, or a NaN. *)
Definition sign_clear (x : float) : bool :=
  match x with
  | S754_zero s | S754_infinity s | S754_finite s _ _ => negb s
  | S754_nan => true
  end.

Ltac each_ascii c :=
  destruct c as [[] [] [] [] [] [] [] []].

Definition sample_config : config :=
  {| tiktok_username := "hugodecrypte"; max_videos := 100 |}.

Definition raw_of_counts (views likes comments : string) : raw_video :=
  {| raw_video_id := "1234567890123456789";
     raw_video_url := "https://www.tiktok.com/@hugodecrypte/video/1234567890123456789";
     raw_description := "Sample video description";
     raw_thumbnail_url := "https://example.com/thumbnail.jpg";
     raw_views_count := views;
     raw_likes_count := likes;
     raw_comments_count := comments;
     raw_scraped_at := "2024-01-01T00:00:00";
     raw_account_username := "hugodecrypte" |}.

(** Scan [k] measured more items after the scroll than before. *)
Definition grew (feed : nat -> scan_obs) (k : nat) : bool :=
  match feed k with
  | Scan initial_count final_count => (initial_count <? final_count)%nat
  | ScanRaised _ => false
  end.

(** The count measured again at the end of scan [k]. *)
Definition measured (feed : nat -> scan_obs) (k : nat) : nat :=
  match feed k with
  | Scan _ final_count => final_count
  | ScanRaised _ => 0
  end.

(** The last three of the first [n] scans did not grow. *)
Definition three_stalls (feed : nat -> scan_obs) (n : nat) : bool :=
  match n with
  | S (S (S m)) => negb (grew feed m) && negb (grew feed (S m)) && negb (grew feed (S (S m)))
  | _ => false
  end.

(** The last of the first [n] scans grew to the cap or beyond (for no scan
    at all: the cap is not positive). *)
Definition reached (max_videos : Z) (feed : nat -> scan_obs) (n : nat) : bool :=
  match n with
  | O => (max_videos <=? 0)%Z
  | S m => grew feed m && (max_videos <=? Z.of_nat (measured feed m))%Z
  end.

Definition finished (max_videos : Z) (feed : nat -> scan_obs) (n : nat) : bool :=
  reached max_videos feed n || three_stalls feed n.

(** The last of the first [n] scans measured the cap or more, whether it
    grew or not. *)
Definition visible_cap_reached (max_videos : Z) (feed : nat -> scan_obs) (n : nat) : bool :=
  match n with
  | O => false
  | S m => (max_videos <=? Z.of_nat (measured feed m))%Z
  end.

(** The count measured by the latest growing scan among the first [n]. *)
Fixpoint recorded (feed : nat -> scan_obs) (n : nat) : nat :=
  match n with
  | O => 0
  | S m => if grew feed m then measured feed m else recorded feed m
  end.

(** The number of scans without growth at the end of the first [n]. *)
Fixpoint stalls (feed : nat -> scan_obs) (n : nat) : nat :=
  match n with
  | O => 0
  | S m => if grew feed m then 0 else S (stalls feed m)
  end.

Definition state_after (feed : nat -> scan_obs) (n : nat) : loop_state :=
  {| videos_loaded := recorded feed n; no_new_videos_count := stalls feed n |}.

(** A page on which two items show at first, four after the first scroll,
    and no more afterwards. *)
Definition two_then_four (k : nat) : scan_obs :=
  match k with
  | O => Scan 2 4
  | _ => Scan 4 4
  end.

(** The URLs of the rows of the exporter. *)
Definition urls (rows : list video_record) : list string := map video_url rows.

(** What holds of the visited URLs and of the rows between two items;
    [base] is the number of URLs visited before the loop. *)
Definition crawl_inv (base : nat) (st : crawl_state) : Prop :=
  NoDup (scraped_videos st)
  /\ NoDup (urls (data st))
  /\ incl (urls (data st)) (scraped_videos st)
  /\ List.length (scraped_videos st) = (base + scraped_count st)%nat.

(** A grid element that links to [url]. *)
Definition grid_element (url : string) : element :=
  {| el_video_url := Some url; el_views := "1.2K"; el_thumbnail := "" |}.

Definition plain_detail : detail :=
  {| d_description := "text"; d_likes_count := "150"; d_comments_count := "25" |}.

(** A page that shows one video, a second one, then the first again. *)
Definition a_b_a (i : nat) : item_obs :=
  match i with
  | 0 => Element (grid_element "https://www.tiktok.com/@u/video/1") plain_detail None
  | 1 => Element (grid_element "https://www.tiktok.com/@u/video/2") plain_detail None
  | 2 => Element (grid_element "https://www.tiktok.com/@u/video/1") plain_detail None
  | _ => NoElement
  end.

Definition fresh_crawl : crawl_state :=
  {| scraped_videos := []; data := []; scraped_count := 0 |}.

(** A profile that shows five videos and never more. *)
Definition five_items_world : world :=
  {| start_browser_obs := Return tt;
     navigate_obs := Return true;
     feed := fun _ => Scan 5 5;
     elements_obs := Return tt;
     items := fun i => if (i <? 5)%nat
                       then Element (grid_element "https://www.tiktok.com/@u/video/1")
                              plain_detail None
                       else NoElement;
     clock := fun _ => "2024-01-01T00:00:00";
     close_obs := None |}.

(** The attempt numbers of the calls in a run of [execute_with_retry]. *)
Fixpoint invocations (tr : list retry_event) : list nat :=
  match tr with
  | [] => []
  | Invoked k :: tr' => k :: invocations tr'
  | Slept _ :: tr' => invocations tr'
  end.

(** The sleeps in a run of [execute_with_retry]. *)
Fixpoint sleeps (tr : list retry_event) : list float :=
  match tr with
  | [] => []
  | Invoked _ :: tr' => sleeps tr'
  | Slept d :: tr' => d :: sleeps tr'
  end.

(** The run does not end on a sleep. *)
Definition ends_on_call (tr : list retry_event) : bool :=
  match last tr (Invoked 0) with
  | Invoked _ => true
  | Slept _ => false
  end.

(** An outcome that ends the retry loop: a value, or an exception that
    [except Exception] lets through. *)
Definition conclusive {A : Type} (o : outcome A) : bool :=
  match o with
  | Return _ => true
  | Raise e => negb (is_Exception e)
  end.

(** A word of [str.split()]: not empty and without whitespace. *)
Definition is_word (w : string) : bool :=
  negb (w =? "")%string && all_c (fun c => negb (isspace_c c)) w.

(** The last character of [s], if any, is not whitespace. *)
Fixpoint ends_clean (s : string) : bool :=
  match s with
  | EmptyString => true
  | String c EmptyString => negb (isspace_c c)
  | String _ s' => ends_clean s'
  end.

(** The character [c] occurs in [s]. *)
Fixpoint has (c : ascii) (s : string) : bool :=
  match s with
  | EmptyString => false
  | String a s' => (a =? c)%char || has c s'
  end.

(** The characters that [format_number] removes, takes as a suffix, or
    that can stand in a text that [float] or [int] reads, compared after
    upper-casing: digits, signs, the dot, the underscore, whitespace, the
    comma, [E] of the exponent, the letters of [INFINITY] and [NAN], and
    the suffixes [K], [M], [B].  The characters outside ASCII are counted
    in: nothing is said about them. *)
Definition count_char (c : ascii) : bool :=
  isdigit_c c || isspace_num c || has (upper_c c) "+-._,EINFTYAKMB"
  || (128 <=? N_of_ascii c)%N.

(** The decimal value of the digits of [s], the other characters being
    left out. *)
Fixpoint decimal_value (acc : Z) (s : string) : Z :=
  match s with
  | EmptyString => acc
  | String c s' =>
      if isdigit_c c then decimal_value (10 * acc + digit_value c)%Z s'
      else decimal_value acc s'
  end.

(** A digit, a comma or a space. *)
Definition digit_or_separator (c : ascii) : bool :=
  isdigit_c c || (c =? ",")%char || (c =? " ")%char.

(** A character that cannot stand in a text that [float] or [int]
    accepts. *)
Definition float_foreign (u : ascii) : bool :=
  negb (isdigit_c u || isspace_num u || has u "+-._eE" || has (upper_c u) "INFTYA").

(** The state [st'] comes from [st] by visiting the URLs [new_urls] and
    adding the rows [new_rows]. *)
Definition extends_by (st st' : crawl_state) (new_urls : list string)
  (new_rows : list video_record) : Prop :=
  scraped_videos st' = (scraped_videos st ++ new_urls)%list
  /\ data st' = (data st ++ new_rows)%list
  /\ scraped_count st' = (scraped_count st + List.length new_urls)%nat
  /\ (forall u, In u new_urls -> ~ In u (scraped_videos st))
  /\ NoDup new_urls
  /\ incl (urls new_rows) new_urls
  /\ List.length new_rows <= List.length new_urls.

(** A profile with one video, on which everything goes well. *)
Definition one_video_world : world :=
  {| start_browser_obs := Return tt;
     navigate_obs := Return true;
     feed := two_then_four;
     elements_obs := Return tt;
     items := fun i => match i with
                       | 0 => Element (grid_element "https://www.tiktok.com/@u/video/1")
                                plain_detail None
                       | _ => NoElement
                       end;
     clock := fun _ => "2024-01-01T00:00:00";
     close_obs := None |}.

(** A grid element with a link to a video, given as a path with a query
    string, and a view count in a [strong] element. *)
Definition sample_grid_node : node :=
  Node (Return "")
       (fun _ => Return None)
       (fun selector =>
          if (selector =? "a[href*=" ++ quoted "/video/" ++ "]")%string
          then Return (Some (Node (Return "")
                               (fun name => if (name =? "href")%string
                                            then Return (Some "/@u/video/123?lang=fr")
                                            else Return None)
                               (fun _ => Return None)))
          else if (selector =? "strong")%string
               then Return (Some (Node (Return " 1.2K ") (fun _ => Return None)
                                    (fun _ => Return None)))
               else Return None).

(** ** Properties of [get_tiktok_profile_url] *)

Lemma replace_char_by_empty : forall c s,
  replace (String c "") "" s = without_char c s.
Proof.
  intros c s. unfold replace.
  induction s as [|a s IH]; [reflexivity|].
  cbn [replace_go without_char prefix String.length Nat.sub].
  destruct (Ascii.ascii_dec c a) as [->|Hne].
  - rewrite Ascii.eqb_refl.
    destruct s; cbn [append]; exact IH.
  - assert (Ha : (a =? c)%char = false) by (apply Ascii.eqb_neq; congruence).
    rewrite Ha. now rewrite IH.
Qed.

(** C10.  The profile URL is the fixed prefix followed by the user name
    without any at-sign, so a handle written with a leading at-sign gives
    the URL of the handle written without it. *)
Theorem get_tiktok_profile_url_strips_at : forall username,
  get_tiktok_profile_url username
    = "https://www.tiktok.com/@" ++ without_char "@" username
  /\ get_tiktok_profile_url (String "@" username) = get_tiktok_profile_url username.
Proof.
  intro username. unfold get_tiktok_profile_url.
  rewrite !replace_char_by_empty. split; reflexivity.
Qed.

(** ** Properties of [RetryHandler.execute_with_retry] *)

Lemma retry_loop_failed_call :
  forall (A : Type) (max_retries : Z) (base_delay : float) (func : nat -> outcome A)
    (sleep : nat -> option exn) (remaining attempt : nat) (last : option exn) (e : exn),
    func attempt = Raise e ->
    is_Exception e = true ->
    ((Z.of_nat attempt <? max_retries - 1)%Z = true ->
     fmul_int base_delay (2 ^ Z.of_nat attempt)
       = Return (fmul base_delay (float_of_int (2 ^ Z.of_nat attempt)))
     /\ sleep attempt = None) ->
    retry_loop max_retries base_delay func sleep (S remaining) attempt last
    = let '(r, tr) :=
        retry_loop max_retries base_delay func sleep remaining (S attempt) (Some e) in
      (r, if (Z.of_nat attempt <? max_retries - 1)%Z
          then Invoked attempt
               :: Slept (fmul base_delay (float_of_int (2 ^ Z.of_nat attempt))) :: tr
          else Invoked attempt :: tr).
Proof.
  intros A max_retries base_delay func sleep remaining attempt last e Hf He Hgo.
  cbn [retry_loop]. rewrite Hf, He.
  destruct (Z.of_nat attempt <? max_retries - 1)%Z; [|reflexivity].
  destruct (Hgo eq_refl) as [-> ->]. reflexivity.
Qed.

Lemma retry_loop_always_failing :
  forall (A : Type) (max_retries : Z) (base_delay : float) (e : nat -> exn)
    (sleep : nat -> option exn),
    (forall k, is_Exception (e k) = true) ->
    (forall k, (Z.of_nat k < max_retries - 1)%Z ->
       fmul_int base_delay (2 ^ Z.of_nat k)
         = Return (fmul base_delay (float_of_int (2 ^ Z.of_nat k)))
       /\ sleep k = None) ->
    forall remaining attempt last,
      Z.of_nat (attempt + remaining) = (max_retries - 1)%Z ->
      retry_loop (A := A) max_retries base_delay (fun k => Raise (e k)) sleep
        (S remaining) attempt last
      = (Raise (e (attempt + remaining)%nat),
         (retried base_delay attempt remaining ++ [Invoked (attempt + remaining)%nat])%list).
Proof.
  intros A max_retries base_delay e sleep He Hgo remaining.
  induction remaining as [|r IH]; intros attempt last Hmax;
    rewrite (retry_loop_failed_call A max_retries base_delay _ sleep _ attempt last (e attempt))
      by (reflexivity || apply He || (intro H; apply Hgo; now apply Z.ltb_lt)).
  - cbn [retry_loop].
    replace (Z.of_nat attempt <? max_retries - 1)%Z with false
      by (symmetry; apply Z.ltb_ge; lia).
    rewrite Nat.add_0_r. reflexivity.
  - rewrite (IH (S attempt) (Some (e attempt))) by lia.
    replace (Z.of_nat attempt <? max_retries - 1)%Z with true
      by (symmetry; apply Z.ltb_lt; lia).
    cbn [retried app]. now rewrite Nat.add_succ_r.
Qed.

(** C3.  With five attempts and a base delay of one, an operation that
    fails each time is called five times, the sleeps before the calls 2 to
    5 last 1, 2, 4 and 8, each being the base delay times a power of two,
    and the exception raised in the end is that of the fifth call. *)
Theorem execute_with_retry_five_failures :
  forall (A : Type) (e : nat -> exn),
    (forall k, is_Exception (e k) = true) ->
    execute_with_retry (A := A) 5 (float_of_int 1) (fun k => Raise (e k))
    = (Raise (e 4%nat),
       [Invoked 0; Slept (float_of_int 1);
        Invoked 1; Slept (float_of_int 2);
        Invoked 2; Slept (float_of_int 4);
        Invoked 3; Slept (float_of_int 8);
        Invoked 4])
    /\ map (fun k => fmul (float_of_int 1) (float_of_int (2 ^ (k - 1)))) [1; 2; 3; 4]%Z
       = map float_of_int [1; 2; 4; 8]%Z.
Proof.
  intros A e He. split.
  - unfold execute_with_retry, execute_with_retry_under.
    change (Z.to_nat 5) with 5%nat.
    rewrite (retry_loop_always_failing A 5 (float_of_int 1) e (fun _ => None) He);
      [reflexivity| |reflexivity].
    intros k Hk. split; [|reflexivity].
    do 4 (destruct k as [|k]; [vm_compute; reflexivity|]). lia.
  - vm_compute. reflexivity.
Qed.

Lemma execute_with_retry_five_failures_witness :
  (forall k, is_Exception (RuntimeError (if Nat.eqb k 4 then "last" else "earlier")) = true)
  /\ fst (execute_with_retry (A := unit) 5 (float_of_int 1)
            (fun k => Raise (RuntimeError (if Nat.eqb k 4 then "last" else "earlier"))))
     = Raise (RuntimeError "last").
Proof.
  split; [reflexivity|].
  rewrite (proj1 (execute_with_retry_five_failures unit
             (fun k => RuntimeError (if Nat.eqb k 4 then "last" else "earlier"))
             (fun k => eq_refl))).
  reflexivity.
Defined.

(** ** Properties of [format_number] *)

Lemma format_number_examples :
  format_number "0" = Return 0%Z
  /\ format_number "1.2K" = Return 1200%Z
  /\ format_number "5.5M" = Return 5500000%Z
  /\ format_number "" = Return 0%Z
  /\ format_number "garbage" = Return 0%Z
  /\ format_number "2B" = Return 2000000000%Z.
Proof. vm_compute. repeat split. Qed.

(** When [float] or [int] rejects the text, the result is 0. *)
Lemma format_number_ValueError_default : forall text,
  (contains "K" (normalized text) = true ->
     py_float (replace "K" "" (normalized text)) = Raise ValueError) ->
  (contains "K" (normalized text) = false -> contains "M" (normalized text) = true ->
     py_float (replace "M" "" (normalized text)) = Raise ValueError) ->
  (contains "K" (normalized text) = false -> contains "M" (normalized text) = false ->
   contains "B" (normalized text) = true ->
     py_float (replace "B" "" (normalized text)) = Raise ValueError) ->
  (contains "K" (normalized text) = false -> contains "M" (normalized text) = false ->
   contains "B" (normalized text) = false ->
     py_int (normalized text) = Raise ValueError) ->
  format_number text = Return 0%Z.
Proof.
  intros text HK HM HB HI. unfold format_number.
  destruct (text =? "")%string; [reflexivity|].
  fold (normalized text).
  destruct (contains "K" (normalized text)).
  { rewrite HK by reflexivity. reflexivity. }
  destruct (contains "M" (normalized text)).
  { rewrite HM by reflexivity. reflexivity. }
  destruct (contains "B" (normalized text)).
  { rewrite HB by reflexivity. reflexivity. }
  rewrite HI by reflexivity. reflexivity.
Qed.

(** C5.  A count whose value is infinite is accepted by [float]; the
    conversion to [int] then raises [OverflowError], which the handler for
    [ValueError] and [TypeError] lets through. *)
Theorem format_number_overflow_escapes :
  format_number "1e999K" = Raise OverflowError
  /\ format_number "infK" = Raise OverflowError.
Proof. vm_compute. split; reflexivity. Qed.

(** C6, as stated: the product of the float read from "1.999" and 1000 is
    the float 1999, so the result is not 1998. *)
Lemma format_number_1_999K_not_1998 :
  format_number "1.999K" <> Return 1998%Z.
Proof. vm_compute. discriminate. Qed.

(** C6.  The conversion after the float product truncates: "1.9999K" gives
    1999 and not 2000; and the float product may fall just below the exact
    value: "1.001K" gives 1000 and not 1001.  The text "1.999K" gives 1999. *)
Theorem format_number_truncates :
  format_number "1.9999K" = Return 1999%Z
  /\ format_number "1.001K" = Return 1000%Z
  /\ format_number "1.999K" = Return 1999%Z.
Proof. vm_compute. repeat split. Qed.

(** *** Sign of the result *)

Lemma contains_char_all_c : forall c s,
  contains (String c "") s = false ->
  all_c (fun a => negb (a =? c)%char) s = true.
Proof.
  intros c s. induction s as [|a s IH]; [reflexivity|].
  cbn [contains prefix all_c].
  destruct (Ascii.ascii_dec c a) as [->|Hne].
  - destruct s; discriminate.
  - intro H. cbn [orb] in H.
    assert (Ha : (a =? c)%char = false) by (apply Ascii.eqb_neq; congruence).
    rewrite Ha. cbn [negb andb]. now apply IH.
Qed.

Lemma upper_c_not_minus : forall c, not_minus c = true -> not_minus (upper_c c) = true.
Proof. intro c. each_ascii c; vm_compute; trivial. Qed.

Lemma upper_not_minus : forall s,
  all_c not_minus s = true -> all_c not_minus (upper s) = true.
Proof.
  induction s as [|c s IH]; [reflexivity|].
  cbn [upper all_c]. intro H. apply andb_true_iff in H as [Hc Hs].
  now rewrite upper_c_not_minus, IH.
Qed.

Lemma replace_go_by_empty_all_c : forall (p : ascii -> bool) old s skip,
  all_c p s = true -> all_c p (replace_go old "" skip s) = true.
Proof.
  intros p old s. induction s as [|c s IH]; intros skip H; [reflexivity|].
  cbn [all_c] in H. apply andb_true_iff in H as [Hc Hs].
  cbn [replace_go]. destruct skip as [|k]; [|now apply IH].
  destruct (prefix old (String c s)).
  - cbn [append]. now apply IH.
  - cbn [all_c]. now rewrite Hc, IH.
Qed.

Lemma replace_by_empty_all_c : forall (p : ascii -> bool) old s,
  all_c p s = true -> all_c p (replace old "" s) = true.
Proof. intros. now apply replace_go_by_empty_all_c. Qed.

Lemma normalized_not_minus : forall text,
  contains "-" text = false -> all_c not_minus (normalized text) = true.
Proof.
  intros text H. unfold normalized.
  do 2 apply replace_by_empty_all_c. apply upper_not_minus.
  now apply contains_char_all_c.
Qed.

Lemma strip_underscores_all_c : forall (p : ascii -> bool) s prev s',
  strip_underscores prev s = Some s' -> all_c p s = true -> all_c p s' = true.
Proof.
  intros p s. induction s as [|c s IH]; intros prev s' Hs Hp.
  - cbn [strip_underscores] in Hs.
    destruct prev as [a|]; [destruct (Ascii.ascii_dec a "_") as [->|]|];
      try (injection Hs as <-; reflexivity).
    + discriminate.
    + each_ascii a; try (injection Hs as <-; reflexivity). congruence.
  - cbn [all_c] in Hp. apply andb_true_iff in Hp as [Hc Hr].
    cbn [strip_underscores] in Hs.
    assert (Hmap : forall q, option_map (String c) (strip_underscores q s) = Some s' ->
                             all_c p s' = true).
    { intros q Hq. destruct (strip_underscores q s) as [t|] eqn:Ht; [|discriminate].
      injection Hq as <-. cbn [all_c]. rewrite Hc. now apply (IH q). }
    destruct (c =? "_")%char.
    + destruct prev as [a|]; [|discriminate].
      destruct (isdigit_c a); [|discriminate]. now apply (IH (Some c)).
    + destruct prev as [a|]; [|now apply (Hmap (Some c))].
      each_ascii a; try (now apply (Hmap (Some c))).
      destruct (isdigit_c c); [now apply (Hmap (Some c))|discriminate].
Qed.

Lemma lstrip_by_all_c : forall (p sp : ascii -> bool) s,
  all_c p s = true -> all_c p (lstrip_by sp s) = true.
Proof.
  intros p sp s. induction s as [|c s IH]; [reflexivity|].
  intro H. cbn [lstrip_by]. destruct (sp c); [|exact H].
  cbn [all_c] in H. apply andb_true_iff in H as [_ Hs]. now apply IH.
Qed.

Lemma scan_sign_not_minus : forall s,
  all_c not_minus s = true -> fst (scan_sign s) = false.
Proof.
  intros [|c s]; [reflexivity|]. cbn [all_c]. intro H.
  apply andb_true_iff in H as [Hc _]. revert Hc.
  each_ascii c; vm_compute; trivial; discriminate.
Qed.

Lemma digit_value_nonneg : forall c, isdigit_c c = true -> (0 <= digit_value c)%Z.
Proof. intro c. each_ascii c; vm_compute; intro; discriminate. Qed.

Lemma scan_digits_nonneg : forall s acc n,
  (0 <= acc)%Z -> (0 <= fst (fst (scan_digits acc n s)))%Z.
Proof.
  induction s as [|c s IH]; intros acc n H; [exact H|].
  cbn [scan_digits]. destruct (isdigit_c c) eqn:Hc; [|exact H].
  apply IH. pose proof (digit_value_nonneg c Hc). lia.
Qed.

Lemma binary_round_aux_sign : forall sx mx ex lx,
  sign_clear (binary_round_aux prec emax sx mx ex lx) = negb sx
  \/ binary_round_aux prec emax sx mx ex lx = S754_nan.
Proof.
  intros sx mx ex lx. unfold binary_round_aux.
  destruct (shr_fexp prec emax mx ex lx) as [mrs' e'].
  destruct (shr_fexp prec emax _ e' loc_Exact) as [mrs'' e''].
  destruct (shr_m mrs''); [left; reflexivity| |right; reflexivity].
  destruct (Z.leb e'' _); left; reflexivity.
Qed.

Lemma binary_round_aux_sign_clear : forall mx ex lx,
  sign_clear (binary_round_aux prec emax false mx ex lx) = true.
Proof.
  intros mx ex lx.
  destruct (binary_round_aux_sign false mx ex lx) as [H|H]; now rewrite H.
Qed.

Lemma float_of_int_sign_clear : forall n, (0 <= n)%Z -> sign_clear (float_of_int n) = true.
Proof.
  intros [|p|p] H; [reflexivity| |lia].
  unfold float_of_int, binary_normalize, binary_round.
  destruct (shl_align _ _ _) as [mz ez]. apply binary_round_aux_sign_clear.
Qed.

Lemma float_of_decimal_sign_clear : forall d e,
  (0 <= d)%Z -> sign_clear (float_of_decimal false d e) = true.
Proof.
  intros [|p|p] e H; [reflexivity| |lia].
  unfold float_of_decimal. destruct (0 <=? e)%Z eqn:He.
  - apply float_of_int_sign_clear. apply Z.leb_le in He.
    apply Z.mul_nonneg_nonneg; [lia|]. apply Z.pow_nonneg. lia.
  - unfold SFdiv. destruct (SFdiv_core_binary _ _ _ _ _ _) as [[mz ez] lz].
    apply binary_round_aux_sign_clear.
Qed.

Lemma fmul_sign_clear : forall x m e,
  sign_clear x = true -> sign_clear (fmul x (S754_finite false m e)) = true.
Proof.
  intros [s|s| |s mx ex] m e H; cbn [sign_clear] in H;
    try (apply negb_true_iff in H; subst s); try reflexivity.
  unfold fmul, SFmul. apply binary_round_aux_sign_clear.
Qed.

Lemma int_of_float_sign_clear : forall x,
  sign_clear x = true ->
  (exists n, int_of_float x = Return n /\ (0 <= n)%Z)
  \/ int_of_float x = Raise OverflowError
  \/ int_of_float x = Raise ValueError.
Proof.
  intros [s|s| |s m e] H; cbn [sign_clear] in H;
    try (apply negb_true_iff in H; subst s).
  - left. exists 0%Z. split; [reflexivity|lia].
  - right. left. reflexivity.
  - right. right. reflexivity.
  - left. cbn [int_of_float]. eexists. split; [reflexivity|].
    destruct (0 <=? e)%Z eqn:He.
    + apply Z.leb_le in He. apply Z.mul_nonneg_nonneg; [lia|]. now apply Z.pow_nonneg.
    + apply Z.div_pos; [lia|]. apply Z.pow_pos_nonneg; [lia|].
      apply Z.leb_gt in He. lia.
Qed.

Lemma py_float_raises_ValueError : forall s e, py_float s = Raise e -> e = ValueError.
Proof.
  intros s e. unfold py_float.
  destruct (strip_underscores None s) as [t|]; [|congruence].
  destruct (scan_sign _) as [neg s0].
  destruct (_ || _); [discriminate|].
  destruct (_ =? "NAN")%string; [discriminate|].
  destruct (scan_digits 0 0 s0) as [[ip ni] s1].
  assert (H : forall fp nf s2,
    match (ni + nf)%nat with
    | O => Raise ValueError
    | S _ =>
        let '(ex, s3) := scan_exponent s2 in
        if all_c isspace_num s3
        then Return (float_of_decimal neg fp (ex - Z.of_nat nf))
        else Raise ValueError
    end = Raise e -> e = ValueError).
  { intros fp nf s2. destruct (ni + nf)%nat; [congruence|].
    destruct (scan_exponent s2) as [ex s3].
    destruct (all_c isspace_num s3); congruence. }
  destruct s1 as [|c r]; [apply H|].
  destruct (Ascii.ascii_dec c ".") as [->|Hne].
  - destruct (scan_digits ip 0 r) as [[fp nf] s2]. apply H.
  - each_ascii c; try apply H. congruence.
Qed.

Lemma py_float_sign_clear : forall s x,
  all_c not_minus s = true -> py_float s = Return x -> sign_clear x = true.
Proof.
  intros s x Hs. unfold py_float.
  destruct (strip_underscores None s) as [t|] eqn:Ht; [|discriminate].
  pose proof (strip_underscores_all_c not_minus s None t Ht Hs) as Hnm.
  pose proof (scan_sign_not_minus _ (lstrip_by_all_c not_minus isspace_num t Hnm)) as Hsg.
  destruct (scan_sign _) as [neg s0]. cbn [fst] in Hsg. subst neg.
  destruct (_ || _); [intro H; injection H as <-; reflexivity|].
  destruct (_ =? "NAN")%string; [intro H; injection H as <-; reflexivity|].
  pose proof (scan_digits_nonneg s0 0%Z 0%nat (Z.le_refl 0)) as Hip.
  destruct (scan_digits 0 0 s0) as [[ip ni] s1]. cbn [fst] in Hip.
  assert (H : forall fp nf s2, (0 <= fp)%Z ->
    match (ni + nf)%nat with
    | O => Raise ValueError
    | S _ =>
        let '(ex, s3) := scan_exponent s2 in
        if all_c isspace_num s3
        then Return (float_of_decimal false fp (ex - Z.of_nat nf))
        else Raise ValueError
    end = Return x -> sign_clear x = true).
  { intros fp nf s2 Hfp. destruct (ni + nf)%nat; [discriminate|].
    destruct (scan_exponent s2) as [ex s3].
    destruct (all_c isspace_num s3); [|discriminate].
    intro E. injection E as <-. now apply float_of_decimal_sign_clear. }
  destruct s1 as [|c r]; [now apply H|].
  destruct (Ascii.ascii_dec c ".") as [->|Hne].
  - pose proof (scan_digits_nonneg r ip 0%nat Hip) as Hfp.
    destruct (scan_digits ip 0 r) as [[fp nf] s2]. now apply H.
  - each_ascii c; try (now apply H). congruence.
Qed.

Lemma py_int_nonneg : forall s n,
  all_c not_minus s = true -> py_int s = Return n -> (0 <= n)%Z.
Proof.
  intros s n Hs. unfold py_int.
  destruct (strip_underscores None s) as [t|] eqn:Ht; [|discriminate].
  pose proof (strip_underscores_all_c not_minus s None t Ht Hs) as Hnm.
  pose proof (scan_sign_not_minus _ (lstrip_by_all_c not_minus isspace_num t Hnm)) as Hsg.
  destruct (scan_sign _) as [neg s0]. cbn [fst] in Hsg. subst neg.
  pose proof (scan_digits_nonneg s0 0%Z 0%nat (Z.le_refl 0)) as Hv.
  destruct (scan_digits 0 0 s0) as [[v k] s1]. cbn [fst] in Hv.
  destruct k; [discriminate|].
  destruct (all_c isspace_num s1); [|discriminate].
  intro E. injection E as <-. exact Hv.
Qed.

Lemma py_int_raises_ValueError : forall s e, py_int s = Raise e -> e = ValueError.
Proof.
  intros s e. unfold py_int.
  destruct (strip_underscores None s) as [t|]; [|congruence].
  destruct (scan_sign _) as [neg s0].
  destruct (scan_digits 0 0 s0) as [[v k] s1].
  destruct k; [congruence|].
  destruct (all_c isspace_num s1); congruence.
Qed.

(** One suffix branch of [format_number]. *)
Lemma suffix_branch_nonneg : forall s m e,
  all_c not_minus s = true ->
  let r := except_ValueError_TypeError
             (x <- py_float s ;; int_of_float (fmul x (S754_finite false m e)))
             (Return 0%Z) in
  (exists n, r = Return n /\ (0 <= n)%Z) \/ r = Raise OverflowError.
Proof.
  intros s m e Hs. cbv zeta.
  destruct (py_float s) as [x|err] eqn:Hf.
  - cbn [bind].
    pose proof (fmul_sign_clear x m e (py_float_sign_clear s x Hs Hf)) as Hx.
    destruct (int_of_float_sign_clear _ Hx) as [[n [-> Hn]]|[-> | ->]].
    + left. now exists n.
    + right. reflexivity.
    + left. exists 0%Z. split; [reflexivity|lia].
  - rewrite (py_float_raises_ValueError s err Hf).
    left. exists 0%Z. split; [reflexivity|lia].
Qed.

Lemma format_number_nonneg : forall text,
  contains "-" text = false ->
  (exists n, format_number text = Return n /\ (0 <= n)%Z)
  \/ format_number text = Raise OverflowError.
Proof.
  intros text H. unfold format_number.
  destruct (text =? "")%string.
  { left. exists 0%Z. split; [reflexivity|lia]. }
  fold (normalized text).
  pose proof (normalized_not_minus text H) as Hn.
  destruct (contains "K" (normalized text)).
  { apply (suffix_branch_nonneg _ _ _ (replace_by_empty_all_c _ "K" _ Hn)). }
  destruct (contains "M" (normalized text)).
  { apply (suffix_branch_nonneg _ _ _ (replace_by_empty_all_c _ "M" _ Hn)). }
  destruct (contains "B" (normalized text)).
  { apply (suffix_branch_nonneg _ _ _ (replace_by_empty_all_c _ "B" _ Hn)). }
  destruct (py_int (normalized text)) as [n|err] eqn:Hi.
  - left. exists n. split; [reflexivity|]. now apply (py_int_nonneg _ n Hn).
  - rewrite (py_int_raises_ValueError _ err Hi).
    left. exists 0%Z. split; [reflexivity|lia].
Qed.

(** ** Properties of [CSVExporter._process_video_data] *)

(** C8, as stated: a count text with a minus sign gives a negative count. *)
Lemma process_video_data_negative_count :
  format_number "-5" = Return (-5)%Z
  /\ exists processed,
       _process_video_data sample_config "2024-01-01T00:00:00" (raw_of_counts "-5" "0" "0")
         = Return processed
       /\ (views_count processed < 0)%Z.
Proof.
  split; [vm_compute; reflexivity|].
  eexists. split; [vm_compute; reflexivity|]. cbn. lia.
Qed.

(** C8.  A count text without a minus sign is turned into an integer that
    is not negative, the only other possibility being that [format_number]
    raises [OverflowError]; so when the three count texts have no minus
    sign, the record that [_process_video_data] builds has integer counts
    that are not negative. *)
Theorem process_video_data_counts_nonneg :
  (forall text,
     contains "-" text = false ->
     (exists n, format_number text = Return n /\ (0 <= n)%Z)
     \/ format_number text = Raise OverflowError)
  /\ (forall cfg now raw,
        contains "-" (raw_views_count raw) = false ->
        contains "-" (raw_likes_count raw) = false ->
        contains "-" (raw_comments_count raw) = false ->
        (exists processed,
           _process_video_data cfg now raw = Return processed
           /\ (0 <= views_count processed)%Z
           /\ (0 <= likes_count processed)%Z
           /\ (0 <= comments_count processed)%Z)
        \/ _process_video_data cfg now raw = Raise OverflowError).
Proof.
  split; [exact format_number_nonneg|].
  intros cfg now raw Hv Hl Hc. unfold _process_video_data.
  destruct (format_number_nonneg _ Hv) as [[v [-> Hv0]]| ->]; [|right; reflexivity].
  destruct (format_number_nonneg _ Hl) as [[l [-> Hl0]]| ->]; [|right; reflexivity].
  destruct (format_number_nonneg _ Hc) as [[c [-> Hc0]]| ->]; [|right; reflexivity].
  left. eexists. split; [reflexivity|]. cbn. auto.
Qed.

Lemma process_video_data_counts_nonneg_witness :
  exists processed,
    _process_video_data sample_config "2024-01-01T00:00:00" (raw_of_counts "1.2K" "150" "25")
      = Return processed
    /\ (0 <= views_count processed)%Z
    /\ (0 <= likes_count processed)%Z
    /\ (0 <= comments_count processed)%Z.
Proof.
  destruct (proj2 process_video_data_counts_nonneg sample_config "2024-01-01T00:00:00"
              (raw_of_counts "1.2K" "150" "25") eq_refl eq_refl eq_refl) as [H|H].
  - exact H.
  - vm_compute in H. discriminate H.
Defined.

(** ** Properties of the video identifier *)

Lemma append_nil_r : forall s : string, s ++ "" = s.
Proof. induction s as [|c s IH]; [reflexivity|]. cbn. now rewrite IH. Qed.

Lemma append_assoc : forall a b c : string, (a ++ b) ++ c = a ++ b ++ c.
Proof. induction a as [|x a IH]; intros; [reflexivity|]. cbn. now rewrite IH. Qed.

Lemma append_length : forall a b : string,
  String.length (a ++ b) = (String.length a + String.length b)%nat.
Proof. induction a as [|x a IH]; intros; [reflexivity|]. cbn. now rewrite IH. Qed.

Lemma prefix_append : forall p r : string, prefix p (p ++ r) = true.
Proof.
  induction p as [|c p IH]; intro r; [destruct r; reflexivity|].
  cbn. destruct (Ascii.ascii_dec c c); [apply IH|congruence].
Qed.

(** Whether [p] is a prefix is decided by the first [length p] characters. *)
Lemma prefix_append_long : forall p u v : string,
  (String.length p <= String.length u)%nat -> prefix p (u ++ v) = prefix p u.
Proof.
  induction p as [|c p IH]; intros u v H.
  - destruct u; destruct v; reflexivity.
  - destruct u as [|a u]; [cbn in H; lia|].
    cbn. destruct (Ascii.ascii_dec c a); [|reflexivity].
    apply IH. cbn in H. lia.
Qed.

Lemma contains_append : forall pre sep rest : string,
  contains sep (pre ++ sep ++ rest) = true.
Proof.
  induction pre as [|a pre IH]; intros sep rest.
  - cbn [append]. destruct (sep ++ rest) eqn:E; cbn [contains];
      rewrite <- E, prefix_append; reflexivity.
  - cbn [append contains]. rewrite IH. apply orb_true_r.
Qed.

Lemma append_eqb_empty : forall pre c rest,
  (pre ++ String c rest =? "")%string = false.
Proof. intros [|a pre] c rest; reflexivity. Qed.

(** After a separator, the characters still to skip are its tail. *)
Lemma split_go_skip : forall sep t cur rest,
  split_go sep (String.length t) cur (t ++ rest) = split_go sep 0 cur rest.
Proof.
  intros sep t. induction t as [|c t IH]; intros cur rest.
  - cbn [String.length append]. destruct rest; reflexivity.
  - cbn [String.length append split_go]. apply IH.
Qed.

Lemma split_go_separator : forall sep cur rest,
  sep <> "" ->
  split_go sep 0 cur (sep ++ rest) = cur :: split_go sep 0 "" rest.
Proof.
  intros [|c t] cur rest H; [congruence|].
  change (String c t ++ rest) with (String c (t ++ rest)).
  cbn [split_go].
  change (String c (t ++ rest)) with (String c t ++ rest).
  rewrite prefix_append.
  cbn [String.length Nat.sub]. rewrite Nat.sub_0_r.
  now rewrite split_go_skip.
Qed.

(** The piece before the first separator: [x ++ z] is the separator, and it
    does not occur in [pre ++ x], that is, it does not begin inside [pre]. *)
Lemma split_go_first : forall x z rest pre cur,
  contains (x ++ String z "") (pre ++ x) = false ->
  split_go (x ++ String z "") 0 cur (pre ++ (x ++ String z "") ++ rest)
  = (cur ++ pre) :: split_go (x ++ String z "") 0 "" rest.
Proof.
  intros x z rest pre. induction pre as [|a pre IH]; intros cur H.
  - cbn [append]. rewrite append_nil_r. apply split_go_separator.
    destruct x; discriminate.
  - cbn [append contains] in H. apply orb_false_iff in H as [Hp Hc].
    cbn [append split_go].
    assert (E : String a (pre ++ (x ++ String z "") ++ rest)
                = String a (pre ++ x) ++ String z rest).
    { cbn [append]. f_equal. rewrite (append_assoc x). cbn [append].
      now rewrite append_assoc. }
    rewrite E, prefix_append_long, Hp.
    + rewrite (IH (cur ++ String a "") Hc).
      rewrite append_assoc. reflexivity.
    + cbn [String.length]. rewrite !append_length. cbn [String.length]. lia.
Qed.

(** Characters that cannot begin the separator extend the current piece. *)
Lemma split_go_head_clean : forall c0 t d cur s,
  all_c (fun a => negb (a =? c0)%char) d = true ->
  split_go (String c0 t) 0 cur (d ++ s) = split_go (String c0 t) 0 (cur ++ d) s.
Proof.
  intros c0 t d. induction d as [|a d IH]; intros cur s H.
  - now rewrite append_nil_r.
  - cbn [all_c] in H. apply andb_true_iff in H as [Ha Hd].
    cbn [append split_go prefix].
    destruct (Ascii.ascii_dec c0 a) as [->|Hne].
    + rewrite Ascii.eqb_refl in Ha. discriminate.
    + rewrite (IH _ _ Hd), append_assoc. reflexivity.
Qed.

(** The first piece extends the piece being read. *)
Lemma split_go_head_extends : forall sep s cur,
  exists x, nth_error (split_go sep 0 cur s) 0 = Some (cur ++ x).
Proof.
  intros sep s. induction s as [|c s IH]; intro cur.
  - exists "". cbn. now rewrite append_nil_r.
  - cbn [split_go]. destruct (prefix sep (String c s)).
    + exists "". cbn. now rewrite append_nil_r.
    + destruct (IH (cur ++ String c "")) as [x Hx].
      exists (String c x). rewrite Hx, append_assoc. reflexivity.
Qed.

Lemma isdigit_c_not_slash : forall c, isdigit_c c = true -> negb (c =? "/")%char = true.
Proof. intro c. each_ascii c; vm_compute; trivial. Qed.

Lemma isdigit_c_not_question : forall c, isdigit_c c = true -> negb (c =? "?")%char = true.
Proof. intro c. each_ascii c; vm_compute; trivial. Qed.

Lemma all_c_impl : forall (p q : ascii -> bool) s,
  (forall c, p c = true -> q c = true) -> all_c p s = true -> all_c q s = true.
Proof.
  intros p q s Hpq. induction s as [|c s IH]; [reflexivity|].
  cbn [all_c]. intro H. apply andb_true_iff in H as [Hc Hs].
  now rewrite (Hpq c Hc), IH.
Qed.

Lemma all_c_contains_char : forall c s,
  all_c (fun a => negb (a =? c)%char) s = true -> contains (String c "") s = false.
Proof.
  intros c s. induction s as [|a s IH]; [reflexivity|].
  cbn [all_c contains prefix]. intro H. apply andb_true_iff in H as [Ha Hs].
  destruct (Ascii.ascii_dec c a) as [->|Hne].
  - rewrite Ascii.eqb_refl in Ha. discriminate.
  - cbn [orb]. now apply IH.
Qed.

(** The two steps [split("/video/")[1]] and [split("?")[0]] on a numeric
    segment followed by nothing or by a query string. *)
Lemma segment_of_rest : forall digits tail,
  all_c isdigit_c digits = true ->
  tail = "" \/ (exists query, tail = String "?" query) ->
  exists part,
    nth_error (split "/video/" (digits ++ tail)) 0 = Some part
    /\ nth_error (split "?" part) 0 = Some digits.
Proof.
  intros digits tail Hd Ht.
  pose proof (all_c_impl _ _ digits isdigit_c_not_slash Hd) as Hslash.
  pose proof (all_c_impl _ _ digits isdigit_c_not_question Hd) as Hq.
  assert (Hplain : nth_error (split "?" digits) 0 = Some digits).
  { unfold split. rewrite <- (append_nil_r digits) at 1.
    rewrite (split_go_head_clean "?" "" digits "" "" Hq). reflexivity. }
  unfold split at 1. rewrite (split_go_head_clean "/" "video/" digits "" tail Hslash).
  cbn [append]. destruct Ht as [->|[query ->]].
  - exists digits. split; [reflexivity|exact Hplain].
  - cbn [split_go prefix]. destruct (Ascii.ascii_dec "/" "?"); [discriminate|].
    destruct (split_go_head_extends "/video/" query (digits ++ "?")) as [x Hx].
    exists ((digits ++ "?") ++ x). split; [exact Hx|].
    rewrite append_assoc. unfold split.
    pose proof (split_go_first "" "?" x digits "") as Hf.
    cbn [append] in Hf. rewrite append_nil_r in Hf.
    change ("?" ++ x) with (String "?" x).
    rewrite Hf by (now apply all_c_contains_char).
    reflexivity.
Qed.

(** C7, as stated: the piece after the first marker is taken even when the
    numeric segment follows a later one, and the list-view identifier, the
    last piece between slashes, keeps the query string. *)
Lemma video_id_not_always_segment :
  _extract_video_id "https://www.tiktok.com/video/abc/video/123" <> "123"
  /\ grid_video_id "https://www.tiktok.com/@u/video/123?lang=fr" <> "123"
  /\ grid_video_id "https://www.tiktok.com/@u/video/123?lang=fr"
     <> grid_video_id "https://www.tiktok.com/@u/video/123".
Proof. vm_compute. repeat split; discriminate. Qed.

(** C7.  When the first marker of the URL is followed by a numeric segment
    and then nothing or a query string, both [_extract_video_id] and
    [extract_video_id] give that segment, with or without the query. *)
Theorem extract_video_id_numeric_segment : forall pre digits query,
  contains "/video/" (pre ++ "/video") = false ->
  all_c isdigit_c digits = true ->
  _extract_video_id (pre ++ "/video/" ++ digits) = digits
  /\ _extract_video_id (pre ++ "/video/" ++ digits ++ String "?" query) = digits
  /\ extract_video_id (pre ++ "/video/" ++ digits) = Some digits
  /\ extract_video_id (pre ++ "/video/" ++ digits ++ String "?" query) = Some digits.
Proof.
  intros pre digits query Hpre Hd.
  assert (H : forall tail, tail = "" \/ (exists q, tail = String "?" q) ->
    _extract_video_id (pre ++ "/video/" ++ digits ++ tail) = digits
    /\ extract_video_id (pre ++ "/video/" ++ digits ++ tail) = Some digits).
  { intros tail Ht.
    destruct (segment_of_rest digits tail Hd Ht) as [part [Hpart Hid]].
    assert (Hsplit : nth_error (split "/video/" (pre ++ "/video/" ++ digits ++ tail)) 1
                     = Some part).
    { unfold split.
      pose proof (split_go_first "/video" "/" (digits ++ tail) pre "" Hpre) as Hf.
      change ("/video" ++ "/") with "/video/" in Hf.
      cbn [append] in Hf |- *. rewrite Hf. exact Hpart. }
    unfold _extract_video_id, extract_video_id.
    rewrite contains_append, Hsplit.
    change ("/video/" ++ digits ++ tail) with (String "/" ("video/" ++ digits ++ tail)).
    rewrite append_eqb_empty.
    rewrite Hid. split; reflexivity. }
  destruct (H "" (or_introl eq_refl)) as [H1 H2].
  destruct (H (String "?" query) (or_intror (ex_intro _ query eq_refl))) as [H3 H4].
  rewrite append_nil_r in H1, H2. auto.
Qed.

Lemma extract_video_id_numeric_segment_witness :
  _extract_video_id
    "https://www.tiktok.com/@hugodecrypte/video/1234567890123456789?is_from_webapp=1"
  = "1234567890123456789".
Proof.
  exact (proj1 (proj2 (extract_video_id_numeric_segment
    "https://www.tiktok.com/@hugodecrypte" "1234567890123456789" "is_from_webapp=1"
    eq_refl eq_refl))).
Defined.

(** ** Properties of [scroll_and_load_videos] *)

Lemma scan_update_state_after : forall feed k i f,
  feed k = Scan i f ->
  scan_update (state_after feed k) i f = state_after feed (S k).
Proof.
  intros feed k i f H. unfold scan_update, state_after.
  cbn [recorded stalls]. unfold grew, measured. rewrite H.
  destruct (i <? f)%nat; reflexivity.
Qed.

Lemma three_stalls_stalls : forall feed n,
  three_stalls feed n = (3 <=? stalls feed n)%nat.
Proof.
  intros feed [|[|[|m]]]; cbn [three_stalls stalls].
  - reflexivity.
  - destruct (grew feed 0); reflexivity.
  - destruct (grew feed 1); [reflexivity|]. destruct (grew feed 0); reflexivity.
  - destruct (grew feed (S (S m))); [now rewrite !andb_false_r|].
    destruct (grew feed (S m)); [now rewrite andb_false_r|].
    destruct (grew feed m); reflexivity.
Qed.

Lemma reached_recorded : forall max_videos feed n,
  (forall k, k < n -> finished max_videos feed k = false) ->
  reached max_videos feed n = (max_videos <=? Z.of_nat (recorded feed n))%Z.
Proof.
  intros max_videos feed n. induction n as [|m IH]; intro H; [reflexivity|].
  cbn [reached recorded]. destruct (grew feed m); [reflexivity|].
  cbn [andb]. rewrite <- IH by (intros k Hk; apply H; lia).
  pose proof (H m (Nat.lt_succ_diag_r m)) as Hm. unfold finished in Hm.
  apply orb_false_iff in Hm as [Hm _]. now rewrite Hm.
Qed.

Lemma loop_guard_finished : forall max_videos feed n,
  (forall k, k < n -> finished max_videos feed k = false) ->
  loop_guard max_videos (state_after feed n) = negb (finished max_videos feed n).
Proof.
  intros max_videos feed n H. unfold loop_guard, finished, state_after, max_no_new_videos.
  cbn [videos_loaded no_new_videos_count].
  rewrite (reached_recorded max_videos feed n H), three_stalls_stalls.
  rewrite negb_orb, Z.ltb_antisym, Nat.ltb_antisym. reflexivity.
Qed.

Lemma scroll_loop_runs_to : forall max_videos feed n,
  (forall k, k < n -> exists i f, feed k = Scan i f) ->
  finished max_videos feed n = true ->
  (forall k, k < n -> finished max_videos feed k = false) ->
  forall d k fuel, k + d = n -> d < fuel ->
    scroll_loop max_videos feed fuel k (state_after feed k)
    = Some {| scroll_result := Return (recorded feed n);
              scroll_scans := n;
              scroll_stalls := stalls feed n |}.
Proof.
  intros max_videos feed n Hscan Hfin Hnot d.
  induction d as [|d IH]; intros k fuel Hk Hfuel;
    (destruct fuel as [|fuel]; [lia|]); cbn [scroll_loop].
  - assert (k = n) by lia. subst k.
    rewrite (loop_guard_finished _ _ _ Hnot), Hfin. reflexivity.
  - rewrite loop_guard_finished by (intros j Hj; apply Hnot; lia).
    rewrite (Hnot k) by lia. cbn [negb].
    destruct (Hscan k) as [i [f Hif]]; [lia|]. rewrite Hif.
    rewrite (scan_update_state_after feed k i f Hif).
    apply IH; lia.
Qed.

(** C1.  A visible count at or beyond the cap does not end the loop: with
    a cap of 5 on a page that shows 10 items and never more, the count
    measured by the first scan is already beyond the cap, yet the loop goes
    on for three scans, ends on the stall rule and returns 0.  The guard
    reads [videos_loaded], which only a scan that grows assigns. *)
Theorem visible_cap_does_not_halt :
  scroll_and_load_videos 5 (fun _ => Scan 10 10) 10
    = Some {| scroll_result := Return 0; scroll_scans := 3; scroll_stalls := 3 |}
  /\ visible_cap_reached 5 (fun _ => Scan 10 10) 1 = true.
Proof. split; reflexivity. Qed.

(** X26.  The loop as it is written: as long as no awaited call raises, it
    ends at the first point where the last scan grew to the cap or beyond,
    or the last three scans did not grow, and it returns the count of the
    latest growing scan, 0 when there is none.  When it does not end on the
    cap, as is the case when no measured count gets to a positive cap, it
    ends on exactly three scans in a row without growth; and a scan that
    grows sets the stall counter to 0. *)
Theorem scroll_and_load_videos_halts : forall max_videos feed n fuel,
  (forall k, k < n -> exists i f, feed k = Scan i f) ->
  finished max_videos feed n = true ->
  (forall k, k < n -> finished max_videos feed k = false) ->
  n < fuel ->
  scroll_and_load_videos max_videos feed fuel
    = Some {| scroll_result := Return (recorded feed n);
              scroll_scans := n;
              scroll_stalls := stalls feed n |}
  /\ (reached max_videos feed n = false ->
      three_stalls feed n = true /\ stalls feed n = 3)
  /\ ((0 < max_videos)%Z ->
      (forall k, k < n -> (Z.of_nat (measured feed k) < max_videos)%Z) ->
      reached max_videos feed n = false)
  /\ (forall k, grew feed k = true -> stalls feed (S k) = 0).
Proof.
  intros max_videos feed n fuel Hscan Hfin Hnot Hfuel. split; [|split; [|split]].
  - unfold scroll_and_load_videos.
    apply (scroll_loop_runs_to max_videos feed n Hscan Hfin Hnot n 0 fuel); lia.
  - intro Hr. unfold finished in Hfin. rewrite Hr in Hfin. cbn [orb] in Hfin.
    split; [exact Hfin|].
    destruct n as [|m]; [discriminate|].
    pose proof (Hnot m (Nat.lt_succ_diag_r m)) as Hm. unfold finished in Hm.
    apply orb_false_iff in Hm as [_ Hm].
    rewrite three_stalls_stalls in Hfin, Hm.
    apply Nat.leb_le in Hfin. apply Nat.leb_gt in Hm.
    cbn [stalls] in Hfin |- *. destruct (grew feed m); lia.
  - intros Hmax Hlow. destruct n as [|m]; cbn [reached].
    + apply Z.leb_gt. exact Hmax.
    + replace (max_videos <=? Z.of_nat (measured feed m))%Z with false
        by (symmetry; apply Z.leb_gt; apply Hlow; lia).
      apply andb_false_r.
  - intros k Hk. cbn [stalls]. now rewrite Hk.
Qed.

Lemma scroll_and_load_videos_halts_witness :
  scroll_and_load_videos 100 two_then_four 10
    = Some {| scroll_result := Return 4; scroll_scans := 4; scroll_stalls := 3 |}.
Proof.
  refine (proj1 (scroll_and_load_videos_halts 100 two_then_four 4 10 _ _ _ _)).
  - intros k Hk. do 4 (destruct k as [|k]; [eexists; eexists; reflexivity|]). lia.
  - reflexivity.
  - intros k Hk. do 4 (destruct k as [|k]; [reflexivity|]). lia.
  - lia.
Defined.

(** C2.  On a page that shows five items and never more, with the default
    cap of 100, no scan grows: the function returns 0 although five items
    are visible at every measurement, and [scrape_profile] then gives up
    before looking at any item. *)
Theorem scroll_and_load_videos_returns_zero_with_items_visible :
  scroll_and_load_videos 100 (fun _ => Scan 5 5) 10
    = Some {| scroll_result := Return 0; scroll_scans := 3; scroll_stalls := 3 |}
  /\ (forall k, measured (fun _ => Scan 5 5) k = 5)
  /\ scrape_profile sample_config five_items_world 10 new_scraper
     = Some (Return false,
             {| crawl := fresh_crawl;
                calls := [CallStartBrowser; CallNavigate; CallScroll; CallCloseBrowser] |}).
Proof. split; [reflexivity|split; [intro k; reflexivity|reflexivity]]. Qed.

(** ** Properties of the crawl loop *)

Lemma mem_In : forall url l, mem url l = true <-> In url l.
Proof.
  intros url l. unfold mem. rewrite existsb_exists. split.
  - intros [x [Hx E]]. apply String.eqb_eq in E. now subst.
  - intro H. exists url. split; [exact H|apply String.eqb_refl].
Qed.

Lemma NoDup_snoc : forall (A : Type) (l : list A) (x : A),
  NoDup l -> ~ In x l -> NoDup (l ++ [x])%list.
Proof.
  intros A l x Hl. induction Hl as [|y l Hy Hl IH]; intro Hx; cbn.
  - constructor; [intros []|constructor].
  - constructor.
    + rewrite in_app_iff. intros [H|[H|[]]]; [contradiction|].
      apply Hx. left. congruence.
    + apply IH. intro H. apply Hx. now right.
Qed.

Lemma process_video_data_url : forall cfg now raw processed,
  _process_video_data cfg now raw = Return processed ->
  video_url processed = raw_video_url raw.
Proof.
  intros cfg now raw processed. unfold _process_video_data.
  destruct (format_number (raw_views_count raw)); [|discriminate].
  destruct (format_number (raw_likes_count raw)); [|discriminate].
  destruct (format_number (raw_comments_count raw)); [|discriminate].
  cbn [bind]. intro H. injection H as <-. reflexivity.
Qed.

Lemma add_video_data_rows : forall cfg now rows vd,
  fst (add_video_data cfg now rows vd) = rows
  \/ exists processed,
       fst (add_video_data cfg now rows vd) = (rows ++ [processed])%list
       /\ video_url processed = raw_video_url vd.
Proof.
  intros cfg now rows vd. unfold add_video_data.
  destruct (raw_video_url vd =? "")%string; [now left|].
  destruct (_process_video_data cfg now vd) as [processed|e] eqn:E; [|now left].
  right. exists processed. split; [reflexivity|].
  now apply (process_video_data_url cfg now vd).
Qed.

Lemma commit_item_inv : forall cfg now base st video_data additional_data,
  crawl_inv base st ->
  crawl_inv base (commit_item cfg now st video_data additional_data).
Proof.
  intros cfg now base st video_data additional_data Hinv. unfold commit_item.
  destruct video_data as [vd|]; [|exact Hinv].
  destruct (raw_video_url vd =? "")%string; [exact Hinv|].
  destruct (mem (raw_video_url vd) (scraped_videos st)) eqn:Hmem; [exact Hinv|].
  assert (Hnew : ~ In (raw_video_url vd) (scraped_videos st)).
  { rewrite <- mem_In, Hmem. discriminate. }
  destruct Hinv as [Hs [Hd [Hincl Hlen]]].
  unfold crawl_inv. cbn [scraped_videos data scraped_count].
  split; [now apply NoDup_snoc|].
  match goal with
  | |- context [add_video_data cfg now (data st) ?v] =>
      destruct (add_video_data_rows cfg now (data st) v) as [->|[p [-> Hp]]]
  end.
  - split; [exact Hd|]. split.
    + intros u Hu. apply in_or_app. left. now apply Hincl.
    + rewrite length_app. cbn. lia.
  - cbn [raw_video_url] in Hp. unfold urls in *. rewrite map_app. cbn [map].
    rewrite Hp. split; [|split].
    + apply NoDup_snoc; [exact Hd|]. intro H. apply Hnew. now apply Hincl.
    + intros u Hu. apply in_app_or in Hu as [Hu|Hu]; apply in_or_app.
      * left. now apply Hincl.
      * now right.
    + rewrite length_app. cbn. lia.
Qed.

Lemma crawl_loop_inv : forall cfg clock items base remaining i st,
  crawl_inv base st ->
  crawl_inv base (fst (crawl_loop cfg clock items remaining i st)).
Proof.
  intros cfg clock items base remaining.
  induction remaining as [|r IH]; intros i st Hinv; [exact Hinv|].
  cbn [crawl_loop]. destruct (items i) as [|e|el additional_data slept].
  - exact Hinv.
  - destruct (is_Exception e); [now apply IH|exact Hinv].
  - pose proof (commit_item_inv cfg (clock i) base st
                  (extract_video_data cfg (clock i) el) additional_data Hinv) as H.
    destruct slept as [e|]; [|now apply IH].
    destruct (is_Exception e); [now apply IH|exact H].
Qed.

Lemma NoDup_count_occ_le : forall (l : list string) (url : string),
  NoDup l -> count_occ string_dec l url <= 1.
Proof.
  intros l url H. rewrite (NoDup_count_occ string_dec) in H. apply H.
Qed.

(** C4.  From a new scraper, whatever the page shows, after the crawl loop
    no two rows have the same URL, no URL is listed twice as visited, every
    row's URL is listed as visited, the count of scraped videos is the
    number of visited URLs, and the number of rows is the number of
    distinct URLs among them.  An item whose URL is already listed leaves
    the state as it is. *)
Theorem crawl_loop_commits_each_url_once : forall cfg clock items remaining,
  let st := fst (crawl_loop cfg clock items remaining 0 fresh_crawl) in
  NoDup (urls (data st))
  /\ NoDup (scraped_videos st)
  /\ incl (urls (data st)) (scraped_videos st)
  /\ scraped_count st = List.length (scraped_videos st)
  /\ List.length (data st) = List.length (nodup string_dec (urls (data st)))
  /\ (forall url, count_occ string_dec (urls (data st)) url <= 1)
  /\ (forall now s vd additional_data,
        mem (raw_video_url vd) (scraped_videos s) = true ->
        commit_item cfg now s (Some vd) additional_data = s).
Proof.
  intros cfg clock items remaining st.
  assert (H0 : crawl_inv 0 fresh_crawl).
  { unfold crawl_inv, fresh_crawl. cbn. repeat split; try constructor.
    intros u []. }
  destruct (crawl_loop_inv cfg clock items 0 remaining 0 fresh_crawl H0)
    as [Hs [Hd [Hincl Hlen]]].
  fold st in Hs, Hd, Hincl, Hlen.
  repeat split; try assumption.
  - cbn in Hlen. lia.
  - rewrite (nodup_fixed_point string_dec Hd). unfold urls. now rewrite length_map.
  - intro url. now apply NoDup_count_occ_le.
  - intros now s vd additional_data Hmem. unfold commit_item. rewrite Hmem.
    destruct (raw_video_url vd =? "")%string; reflexivity.
Qed.

Lemma crawl_loop_commits_each_url_once_witness :
  map video_id (data (fst (crawl_loop sample_config (fun _ => "t") a_b_a 100 0 fresh_crawl)))
    = ["1"; "2"]
  /\ NoDup (urls (data (fst (crawl_loop sample_config (fun _ => "t") a_b_a 100 0 fresh_crawl)))).
Proof.
  split; [vm_compute; reflexivity|].
  exact (proj1 (crawl_loop_commits_each_url_once sample_config (fun _ => "t") a_b_a 100)).
Defined.

(** ** Properties of [scrape_profile] *)

Lemma scrape_profile_try_calls : forall cfg w fuel sc r sc1,
  scrape_profile_try cfg w fuel sc = Some (r, sc1) ->
  exists pre, calls sc1 = (calls sc ++ pre)%list /\ ~ In CallCloseBrowser pre.
Proof.
  intros cfg w fuel sc r sc1. unfold scrape_profile_try.
  assert (Hfin : forall (pre : list call) (o : outcome bool) (s : scraper),
            calls s = (calls sc ++ pre)%list -> ~ In CallCloseBrowser pre ->
            Some (o, s) = Some (r, sc1) ->
            exists pre, calls sc1 = (calls sc ++ pre)%list /\ ~ In CallCloseBrowser pre).
  { intros pre o s Hc Hn E. injection E as <- <-. now exists pre. }
  destruct (start_browser_obs w).
  2:{ apply (Hfin [CallStartBrowser]); [reflexivity|].
      cbn. intuition discriminate. }
  destruct (navigate_obs w) as [[|]|].
  2,3: apply (Hfin [CallStartBrowser; CallNavigate]);
       [cbn; rewrite <- app_assoc; reflexivity | cbn; intuition discriminate].
  destruct (scroll_and_load_videos _ _ _) as [run|]; [|discriminate].
  destruct (scroll_result run) as [total_videos|e].
  2:{ apply (Hfin [CallStartBrowser; CallNavigate; CallScroll]);
        [cbn; rewrite <- !app_assoc; reflexivity | cbn; intuition discriminate]. }
  destruct (total_videos =? 0)%nat.
  { apply (Hfin [CallStartBrowser; CallNavigate; CallScroll]);
      [cbn; rewrite <- !app_assoc; reflexivity | cbn; intuition discriminate]. }
  destruct (elements_obs w).
  2:{ apply (Hfin [CallStartBrowser; CallNavigate; CallScroll; CallGetElements]);
        [cbn; rewrite <- !app_assoc; reflexivity | cbn; intuition discriminate]. }
  destruct (crawl_loop _ _ _ _ _ _) as [st escaped].
  destruct escaped as [e|].
  { apply (Hfin [CallStartBrowser; CallNavigate; CallScroll; CallGetElements]);
      [cbn; rewrite <- !app_assoc; reflexivity | cbn; intuition discriminate]. }
  destruct (data st).
  - apply (Hfin [CallStartBrowser; CallNavigate; CallScroll; CallGetElements]);
      [cbn; rewrite <- !app_assoc; reflexivity | cbn; intuition discriminate].
  - apply (Hfin [CallStartBrowser; CallNavigate; CallScroll; CallGetElements; CallSaveCsv]);
      [cbn; rewrite <- !app_assoc; reflexivity | cbn; intuition discriminate].
Qed.

Lemma scrape_profile_try_none : forall cfg w fuel sc,
  scrape_profile_try cfg w fuel sc = None ->
  scroll_and_load_videos (max_videos cfg) (feed w) fuel = None.
Proof.
  intros cfg w fuel sc. unfold scrape_profile_try.
  destruct (start_browser_obs w); [|discriminate].
  destruct (navigate_obs w) as [[|]|]; try discriminate.
  destruct (scroll_and_load_videos _ _ _) as [run|]; [|reflexivity].
  destruct (scroll_result run) as [total_videos|e]; [|discriminate].
  destruct (total_videos =? 0)%nat; [discriminate|].
  destruct (elements_obs w); [|discriminate].
  destruct (crawl_loop _ _ _ _ _ _) as [st [e|]]; [discriminate|].
  destruct (data st); discriminate.
Qed.

(** C9.  Every run of [scrape_profile] that comes to an end, with a value
    or with an exception, has called [close_browser] once, as its last
    call; and a run comes to an end as soon as the pagination loop does. *)
Theorem scrape_profile_closes_browser : forall cfg w fuel sc,
  match scrape_profile cfg w fuel sc with
  | Some (r, sc') =>
      exists pre,
        calls sc' = (calls sc ++ pre ++ [CallCloseBrowser])%list
        /\ ~ In CallCloseBrowser pre
  | None => scroll_and_load_videos (max_videos cfg) (feed w) fuel = None
  end.
Proof.
  intros cfg w fuel sc. unfold scrape_profile.
  destruct (scrape_profile_try cfg w fuel sc) as [[r sc1]|] eqn:E.
  - destruct (scrape_profile_try_calls cfg w fuel sc r sc1 E) as [pre [Hc Hn]].
    unfold close_browser, called.
    destruct (close_obs w) as [e|]; [destruct (is_Exception e)|];
      (exists pre; split; [|exact Hn]);
      cbn [calls]; rewrite Hc, app_assoc; reflexivity.
  - now apply (scrape_profile_try_none cfg w fuel sc).
Qed.

(** ** More on [RetryHandler.execute_with_retry] *)

(** Up to [2 ** 1023] the power of two is a float, and the delay is
    computed. *)
Lemma fmul_int_power_of_two :
  forall (j : nat) (x : float),
    j < 1024 ->
    fmul_int x (2 ^ Z.of_nat j) = Return (fmul x (float_of_int (2 ^ Z.of_nat j))).
Proof.
  intros j x Hj.
  assert (H : forallb (fun i => match float_of_int (2 ^ Z.of_nat i) with
                                | S754_infinity _ => false
                                | _ => true
                                end) (seq 0 1024) = true)
    by (vm_compute; reflexivity).
  rewrite forallb_forall in H. specialize (H j).
  unfold fmul_int.
  destruct (float_of_int (2 ^ Z.of_nat j)); try reflexivity.
  discriminate H. apply in_seq. lia.
Qed.

(** [2 ** 1024] is too large for a float. *)
Lemma fmul_int_overflow :
  forall x : float, fmul_int x (2 ^ Z.of_nat 1024) = Raise OverflowError.
Proof. intro x. vm_compute. reflexivity. Qed.

(** [d] failed calls in a row, each followed by a sleep that returns. *)
Lemma retry_loop_failures :
  forall (A : Type) (max_retries : Z) (base_delay : float) (func : nat -> outcome A)
    (sleep : nat -> option exn) (d attempt remaining : nat) (last : option exn),
    (Z.of_nat (attempt + d) < max_retries)%Z ->
    attempt + d <= 1024 ->
    (forall j, attempt <= j < attempt + d ->
               exists e, func j = Raise e /\ is_Exception e = true) ->
    (forall j, attempt <= j < attempt + d -> sleep j = None) ->
    exists last',
      retry_loop max_retries base_delay func sleep (d + remaining) attempt last
      = let '(r, tr) :=
          retry_loop max_retries base_delay func sleep remaining (attempt + d) last' in
        (r, (retried base_delay attempt d ++ tr)%list).
Proof.
  intros A max_retries base_delay func sleep d.
  induction d as [|d IH]; intros attempt remaining last Hmax Hbig Hfail Hsleep.
  - exists last. rewrite Nat.add_0_r. cbn [Nat.add retried app].
    now destruct (retry_loop max_retries base_delay func sleep remaining attempt last).
  - destruct (Hfail attempt) as [e [Hf He]]; [lia|].
    destruct (IH (S attempt) remaining (Some e)) as [last' Hrun];
      [lia|lia|intros j Hj; apply Hfail; lia|intros j Hj; apply Hsleep; lia|].
    exists last'. cbn [Nat.add].
    rewrite (retry_loop_failed_call A max_retries base_delay func sleep _ attempt last e Hf He)
      by (intros _; split; [apply fmul_int_power_of_two; lia|apply Hsleep; lia]).
    rewrite Hrun. rewrite Nat.add_succ_r.
    replace (Z.of_nat attempt <? max_retries - 1)%Z with true
      by (symmetry; apply Z.ltb_lt; lia).
    cbn [Nat.add].
    now destruct (retry_loop max_retries base_delay func sleep remaining (S (attempt + d)) last').
Qed.

(** X1.  When the first [k] calls raise exceptions of class [Exception],
    [k] being less than the number of attempts and at most 1024, each sleep
    after them returns, and call [k] returns a value or raises something
    that is not an [Exception], that outcome is the outcome of
    [execute_with_retry]: the operation has been called [k + 1] times, with
    a sleep of [base_delay * 2 ** j] after the failed call [j], and is not
    called again. *)
Theorem execute_with_retry_first_conclusive :
  forall (A : Type) (sleep : nat -> option exn) (max_retries : Z) (base_delay : float)
    (func : nat -> outcome A) (k : nat),
    (Z.of_nat k < max_retries)%Z ->
    k <= 1024 ->
    (forall j, j < k -> exists e, func j = Raise e /\ is_Exception e = true) ->
    (forall j, j < k -> sleep j = None) ->
    conclusive (func k) = true ->
    execute_with_retry_under sleep max_retries base_delay func
    = (func k, (retried base_delay 0 k ++ [Invoked k])%list).
Proof.
  intros A sleep max_retries base_delay func k Hk Hbig Hfail Hsleep Hend.
  unfold execute_with_retry_under.
  replace (Z.to_nat max_retries) with (k + S (Z.to_nat max_retries - S k)) by lia.
  destruct (retry_loop_failures A max_retries base_delay func sleep k 0
              (S (Z.to_nat max_retries - S k)) None) as [last' ->];
    [exact Hk|exact Hbig|intros j Hj; apply Hfail; lia|intros j Hj; apply Hsleep; lia|].
  cbn [Nat.add retry_loop].
  destruct (func k) as [v|e]; [reflexivity|].
  cbn [conclusive] in Hend. apply negb_true_iff in Hend. now rewrite Hend.
Qed.

Lemma execute_with_retry_first_conclusive_witness :
  execute_with_retry_under (fun _ => None) 5 (float_of_int 1)
    (fun j => if (j <? 2)%nat then Raise (RuntimeError "timeout") else Return j)
  = (Return 2,
     [Invoked 0; Slept (float_of_int 1); Invoked 1; Slept (float_of_int 2); Invoked 2]).
Proof.
  rewrite (execute_with_retry_first_conclusive nat (fun _ => None) 5 (float_of_int 1)
             (fun j => if (j <? 2)%nat then Raise (RuntimeError "timeout") else Return j) 2).
  - vm_compute. reflexivity.
  - lia.
  - lia.
  - intros j Hj. exists (RuntimeError "timeout"). split; [|reflexivity].
    destruct j as [|[|j]]; [reflexivity|reflexivity|lia].
  - reflexivity.
  - reflexivity.
Defined.

Lemma retry_loop_starts :
  forall (A : Type) (max_retries : Z) (base_delay : float) (func : nat -> outcome A)
    (sleep : nat -> option exn) (remaining attempt : nat) (last : option exn),
    exists tr,
      snd (retry_loop max_retries base_delay func sleep (S remaining) attempt last)
      = Invoked attempt :: tr.
Proof.
  intros A max_retries base_delay func sleep remaining attempt last.
  cbn [retry_loop].
  destruct (func attempt) as [v|e]; [now eexists|].
  destruct (is_Exception e); [|now eexists].
  destruct (Z.of_nat attempt <? max_retries - 1)%Z.
  - destruct (fmul_int base_delay (2 ^ Z.of_nat attempt)) as [delay|overflow]; [|now eexists].
    destruct (sleep attempt) as [interrupt|]; [now eexists|].
    destruct (retry_loop max_retries base_delay func sleep remaining (S attempt) (Some e)).
    now eexists.
  - destruct (retry_loop max_retries base_delay func sleep remaining (S attempt) (Some e)).
    now eexists.
Qed.

Lemma ends_on_call_tail :
  forall (ev first : retry_event) (tr : list retry_event),
    ends_on_call (ev :: first :: tr) = ends_on_call (first :: tr).
Proof. reflexivity. Qed.

Lemma retry_loop_shape :
  forall (A : Type) (max_retries : Z) (base_delay : float) (func : nat -> outcome A)
    (sleep : nat -> option exn) (remaining attempt : nat) (last : option exn),
    (attempt + remaining)%nat = Z.to_nat max_retries ->
    let run := retry_loop max_retries base_delay func sleep remaining attempt last in
    exists m,
      m <= remaining
      /\ invocations (snd run) = seq attempt m
      /\ (List.length (sleeps (snd run)) = Nat.pred m
          /\ (snd run = [] \/ ends_on_call (snd run) = true)
          \/ m <> 0
             /\ List.length (sleeps (snd run)) = m
             /\ ends_on_call (snd run) = false
             /\ exists e, sleep (attempt + Nat.pred m)%nat = Some e /\ fst run = Raise e).
Proof.
  intros A max_retries base_delay func sleep remaining.
  induction remaining as [|r IH]; intros attempt last Hsum; cbn zeta.
  - exists 0. cbn. split; [lia|]. split; [reflexivity|]. left. auto.
  - cbn [retry_loop]. destruct (func attempt) as [v|e].
    { exists 1. cbn. split; [lia|]. split; [reflexivity|]. left. auto. }
    destruct (is_Exception e).
    2:{ exists 1. cbn. split; [lia|]. split; [reflexivity|]. left. auto. }
    destruct (Z.of_nat attempt <? max_retries - 1)%Z eqn:Hlt.
    + apply Z.ltb_lt in Hlt.
      destruct (fmul_int base_delay (2 ^ Z.of_nat attempt)) as [delay|overflow].
      2:{ exists 1. cbn. split; [lia|]. split; [reflexivity|]. left. auto. }
      destruct (sleep attempt) as [interrupt|] eqn:Hsleep.
      { exists 1. cbn [fst snd invocations sleeps seq List.length Nat.pred].
        split; [lia|]. split; [reflexivity|]. right.
        repeat split; auto. exists interrupt. now rewrite Nat.add_0_r. }
      destruct r as [|r]; [lia|].
      destruct (retry_loop_starts A max_retries base_delay func sleep r (S attempt) (Some e))
        as [rest Hrest].
      specialize (IH (S attempt) (Some e)).
      rewrite Nat.add_succ_comm in IH. specialize (IH Hsum). cbn zeta in IH.
      destruct (retry_loop max_retries base_delay func sleep (S r) (S attempt) (Some e))
        as [res tr].
      cbn [fst snd] in *. subst tr.
      destruct IH as [m [Hm [Hinv Hcases]]].
      destruct m as [|m]; [discriminate Hinv|].
      exists (S (S m)). rewrite !ends_on_call_tail.
      cbn [invocations sleeps List.length] in *. cbn [seq]. rewrite Hinv.
      split; [lia|]. split; [reflexivity|].
      destruct Hcases as [[Hsl Hend]|[_ [Hsl [Hend [err [Herr Hres]]]]]].
      * left. split; [cbn [Nat.pred] in *; lia|].
        right. destruct Hend as [Hnil|Hend]; [discriminate Hnil|exact Hend].
      * right. split; [lia|]. split; [lia|]. split; [exact Hend|].
        exists err. split; [|exact Hres].
        cbn [Nat.pred] in *. now rewrite <- Nat.add_succ_comm.
    + apply Z.ltb_ge in Hlt. assert (r = 0) by lia. subst r.
      cbn [retry_loop]. exists 1. cbn. split; [lia|]. split; [reflexivity|]. left. auto.
Qed.

(** X2.  Whatever the operation and the sleeps do, [execute_with_retry]
    calls the operation at most [max_retries] times, the calls being the
    attempts 0, 1, 2, ... in order, and a run goes one of two ways.  Either
    it sleeps once between two calls and not after the last one; or the
    sleep after its last call raises, and what that sleep raises is what
    [execute_with_retry] raises. *)
Theorem execute_with_retry_bounded :
  forall (A : Type) (sleep : nat -> option exn) (max_retries : Z) (base_delay : float)
    (func : nat -> outcome A),
    let run := execute_with_retry_under sleep max_retries base_delay func in
    exists m,
      (Z.of_nat m <= Z.max 0 max_retries)%Z
      /\ invocations (snd run) = seq 0 m
      /\ (List.length (sleeps (snd run)) = Nat.pred m
          /\ (snd run = [] \/ ends_on_call (snd run) = true)
          \/ m <> 0
             /\ List.length (sleeps (snd run)) = m
             /\ ends_on_call (snd run) = false
             /\ exists e, sleep (Nat.pred m) = Some e /\ fst run = Raise e).
Proof.
  intros A sleep max_retries base_delay func. cbn zeta. unfold execute_with_retry_under.
  destruct (retry_loop_shape A max_retries base_delay func sleep (Z.to_nat max_retries) 0 None
              eq_refl) as [m [Hm H]].
  exists m. split; [lia|exact H].
Qed.

(** X3.  With no attempt allowed ([max_retries] zero or negative) the
    operation is never called and [raise last_exception], where
    [last_exception] is still [None], raises [TypeError]. *)
Theorem execute_with_retry_no_attempt :
  forall (A : Type) (max_retries : Z) (base_delay : float) (func : nat -> outcome A),
    (max_retries <= 0)%Z ->
    execute_with_retry max_retries base_delay func = (Raise TypeError, []).
Proof.
  intros A max_retries base_delay func H.
  unfold execute_with_retry, execute_with_retry_under.
  replace (Z.to_nat max_retries) with 0 by lia. reflexivity.
Qed.

Lemma execute_with_retry_no_attempt_witness :
  execute_with_retry 0 (float_of_int 1) (fun _ => Return tt) = (Raise TypeError, []).
Proof.
  apply (execute_with_retry_no_attempt unit 0 (float_of_int 1) (fun _ => Return tt)). lia.
Defined.

(** X25.  When more than 1025 attempts are allowed, the first 1025 calls
    raise exceptions of class [Exception] and each sleep after the first
    1024 of them returns, [execute_with_retry] raises [OverflowError] after
    call 1024: the delay [base_delay * (2 ** 1024)] cannot be computed,
    [2 ** 1024] being too large for a float, and the exception of the
    operation is lost. *)
Theorem execute_with_retry_delay_overflow :
  forall (A : Type) (sleep : nat -> option exn) (max_retries : Z) (base_delay : float)
    (func : nat -> outcome A),
    (1025 < max_retries)%Z ->
    (forall j, j <= 1024 -> exists e, func j = Raise e /\ is_Exception e = true) ->
    (forall j, j < 1024 -> sleep j = None) ->
    execute_with_retry_under sleep max_retries base_delay func
    = (Raise OverflowError, (retried base_delay 0 1024 ++ [Invoked 1024])%list).
Proof.
  intros A sleep max_retries base_delay func Hmax Hfail Hsleep.
  unfold execute_with_retry_under.
  replace (Z.to_nat max_retries) with (1024 + S (Z.to_nat max_retries - 1025)) by lia.
  destruct (retry_loop_failures A max_retries base_delay func sleep 1024 0
              (S (Z.to_nat max_retries - 1025)) None) as [last' ->];
    [lia|lia|intros j Hj; apply Hfail; lia|intros j Hj; apply Hsleep; lia|].
  change (0 + 1024)%nat with 1024%nat.
  destruct (Hfail 1024%nat) as [e [Hf He]]; [lia|].
  cbn [retry_loop]. rewrite Hf, He.
  replace (Z.of_nat 1024 <? max_retries - 1)%Z with true
    by (symmetry; apply Z.ltb_lt; lia).
  now rewrite fmul_int_overflow.
Qed.

Lemma execute_with_retry_delay_overflow_witness :
  execute_with_retry_under (A := unit) (fun _ => None) 2000 (float_of_int 0)
    (fun _ => Raise (RuntimeError "timeout"))
  = (Raise OverflowError, (retried (float_of_int 0) 0 1024 ++ [Invoked 1024])%list).
Proof.
  apply (execute_with_retry_delay_overflow unit (fun _ => None) 2000 (float_of_int 0)
           (fun _ => Raise (RuntimeError "timeout"))).
  - lia.
  - intros j _. exists (RuntimeError "timeout"). split; reflexivity.
  - reflexivity.
Defined.

(** ** Properties of [clean_text] *)

Lemma all_c_append : forall p a b, all_c p (a ++ b) = all_c p a && all_c p b.
Proof.
  intros p a b. induction a as [|c a IH]; [reflexivity|].
  cbn [append all_c]. now rewrite IH, andb_assoc.
Qed.

Lemma append_empty_eqb : forall a c, (a ++ String c "" =? "")%string = false.
Proof. intros [|x a] c; reflexivity. Qed.

Lemma split_ws_go_words : forall s cur,
  all_c (fun c => negb (isspace_c c)) cur = true ->
  Forall (fun w => is_word w = true) (split_ws_go cur s).
Proof.
  induction s as [|c s IH]; intros cur Hcur; cbn [split_ws_go].
  - destruct (cur =? "")%string eqn:E; constructor; [|constructor].
    unfold is_word. now rewrite E, Hcur.
  - destruct (isspace_c c) eqn:Hc.
    + destruct (cur =? "")%string eqn:E; [now apply IH|].
      constructor; [unfold is_word; now rewrite E, Hcur|now apply IH].
    + apply IH. rewrite all_c_append, Hcur. cbn [all_c]. now rewrite Hc.
Qed.

Lemma split_ws_go_word : forall w cur rest,
  all_c (fun c => negb (isspace_c c)) w = true ->
  split_ws_go cur (w ++ rest) = split_ws_go (cur ++ w) rest.
Proof.
  induction w as [|c w IH]; intros cur rest H.
  - now rewrite append_nil_r.
  - cbn [all_c] in H. apply andb_true_iff in H as [Hc Hw].
    apply negb_true_iff in Hc. cbn [append split_ws_go]. rewrite Hc.
    rewrite (IH _ _ Hw), append_assoc. reflexivity.
Qed.

Lemma join_cons : forall w w2 ws,
  join " " (w :: w2 :: ws) = w ++ String " " (join " " (w2 :: ws)).
Proof. reflexivity. Qed.

Lemma split_ws_join : forall ws,
  Forall (fun w => is_word w = true) ws -> split_ws (join " " ws) = ws.
Proof.
  intros ws H. unfold split_ws.
  induction H as [|w ws Hw Hws IH]; [reflexivity|].
  unfold is_word in Hw. apply andb_true_iff in Hw as [Hne Hsp].
  apply negb_true_iff in Hne.
  destruct ws as [|w2 ws'].
  - change (join " " [w]) with w. rewrite <- (append_nil_r w) at 1.
    rewrite (split_ws_go_word w "" "" Hsp). cbn [append split_ws_go]. now rewrite Hne.
  - rewrite join_cons, (split_ws_go_word w "" _ Hsp). cbn [append split_ws_go].
    change (isspace_c " ") with true. cbn iota. rewrite Hne. now rewrite IH.
Qed.

Lemma ends_clean_not_all_space : forall s,
  (s =? "")%string = false -> ends_clean s = true -> all_c isspace_c s = false.
Proof.
  induction s as [|c s IH]; [discriminate|]. intros _ H.
  destruct s as [|c' s'].
  - cbn in H |- *. apply negb_true_iff in H. now rewrite H.
  - change (all_c isspace_c (String c (String c' s')))
      with (isspace_c c && all_c isspace_c (String c' s')).
    rewrite IH; [apply andb_false_r|reflexivity|exact H].
Qed.

Lemma rstrip_by_clean : forall s, ends_clean s = true -> rstrip_by isspace_c s = s.
Proof.
  induction s as [|c s IH]; [reflexivity|]. intro H.
  cbn [rstrip_by]. rewrite (ends_clean_not_all_space (String c s) eq_refl H).
  f_equal. apply IH. destruct s; [reflexivity|exact H].
Qed.

Lemma ends_clean_append : forall a b,
  (b =? "")%string = false -> ends_clean (a ++ b) = ends_clean b.
Proof.
  induction a as [|c a IH]; intros b Hb; [reflexivity|].
  cbn [append]. destruct (a ++ b) eqn:E.
  - destruct a; [cbn in E; subst b; discriminate|discriminate].
  - rewrite <- E. cbn [ends_clean]. rewrite E, <- E. now apply IH.
Qed.

Lemma is_word_ends_clean : forall w, is_word w = true -> ends_clean w = true.
Proof.
  intros w H. unfold is_word in H. apply andb_true_iff in H as [_ H].
  induction w as [|c w IH]; [reflexivity|].
  cbn [all_c] in H. apply andb_true_iff in H as [Hc Hw].
  destruct w; [exact Hc|now apply IH].
Qed.

Lemma join_words_nonempty : forall w ws,
  is_word w = true -> (join " " (w :: ws) =? "")%string = false.
Proof.
  intros w ws H. unfold is_word in H. apply andb_true_iff in H as [H _].
  apply negb_true_iff in H. unfold join.
  destruct w as [|c w]; [discriminate|]. destruct ws; reflexivity.
Qed.

Lemma join_words_ends_clean : forall ws,
  Forall (fun w => is_word w = true) ws -> ends_clean (join " " ws) = true.
Proof.
  intros ws H. induction H as [|w ws Hw Hws IH]; [reflexivity|].
  destruct ws as [|w2 ws'].
  - now apply is_word_ends_clean.
  - inversion Hws as [|? ? Hw2 _]; subst.
    pose proof (join_words_nonempty w2 ws' Hw2) as Hne.
    rewrite join_cons, ends_clean_append by reflexivity.
    destruct (join " " (w2 :: ws')) eqn:E; [discriminate|exact IH].
Qed.

Lemma lstrip_by_word_head : forall w rest,
  is_word w = true -> lstrip_by isspace_c (w ++ rest) = w ++ rest.
Proof.
  intros w rest H. unfold is_word in H. apply andb_true_iff in H as [Hne Hsp].
  destruct w as [|c w]; [discriminate|].
  cbn [all_c] in Hsp. apply andb_true_iff in Hsp as [Hc _].
  apply negb_true_iff in Hc. cbn [append lstrip_by]. now rewrite Hc.
Qed.

Lemma strip_join_words : forall ws,
  Forall (fun w => is_word w = true) ws -> strip (join " " ws) = join " " ws.
Proof.
  intros ws H. unfold strip.
  assert (Hl : lstrip_by isspace_c (join " " ws) = join " " ws).
  { destruct H as [|w ws Hw Hws]; [reflexivity|].
    destruct ws as [|w2 ws'].
    - change (join " " [w]) with w. rewrite <- (append_nil_r w).
      now apply lstrip_by_word_head.
    - rewrite join_cons. now apply lstrip_by_word_head. }
  rewrite Hl. apply rstrip_by_clean. now apply join_words_ends_clean.
Qed.

(** X4.  [clean_text] gives the words of the text, in order, with one space
    between two words: the final [strip] changes nothing, and cleaning a
    cleaned text gives it back. *)
Theorem clean_text_normal_form : forall text,
  clean_text text = join " " (split_ws text)
  /\ Forall (fun w => is_word w = true) (split_ws text)
  /\ clean_text (clean_text text) = clean_text text.
Proof.
  intro text.
  assert (Hw : Forall (fun w => is_word w = true) (split_ws text))
    by (apply split_ws_go_words; reflexivity).
  assert (H1 : forall t, clean_text t = join " " (split_ws t)).
  { intro t. unfold clean_text. destruct (t =? "")%string eqn:E.
    - apply String.eqb_eq in E. subst t. reflexivity.
    - apply strip_join_words. apply split_ws_go_words. reflexivity. }
  split; [apply H1|]. split; [exact Hw|].
  rewrite (H1 (clean_text text)), (H1 text). now rewrite split_ws_join.
Qed.

(** ** More on [format_number] *)

Lemma upper_empty : forall s, (upper s =? "")%string = (s =? "")%string.
Proof. intros [|c s]; reflexivity. Qed.

(** X5.  [format_number] does not look at the case of the letters: two
    texts with the same upper-case form give the same result. *)
Theorem format_number_case_insensitive : forall a b,
  upper a = upper b -> format_number a = format_number b.
Proof.
  intros a b H. unfold format_number.
  rewrite <- (upper_empty a), <- (upper_empty b), H. reflexivity.
Qed.

Lemma format_number_case_insensitive_witness :
  format_number "1.2k" = format_number "1.2K".
Proof. apply format_number_case_insensitive. reflexivity. Defined.

Lemma contains_char_has : forall c s, contains (String c "") s = has c s.
Proof.
  intros c s. induction s as [|a s IH]; [reflexivity|].
  cbn [contains prefix has]. rewrite IH.
  destruct (Ascii.ascii_dec c a) as [->|Hne].
  - rewrite Ascii.eqb_refl. destruct s; reflexivity.
  - assert (Ha : (a =? c)%char = false) by (apply Ascii.eqb_neq; congruence).
    now rewrite Ha.
Qed.

Lemma has_without_char : forall u o s,
  (u =? o)%char = false -> has u (without_char o s) = has u s.
Proof.
  intros u o s H. induction s as [|a s IH]; [reflexivity|].
  cbn [without_char has]. destruct (a =? o)%char eqn:Ea.
  - apply Ascii.eqb_eq in Ea. subst a. rewrite Ascii.eqb_sym, H. exact IH.
  - cbn [has]. now rewrite IH.
Qed.

Lemma has_upper : forall c s, has c s = true -> has (upper_c c) (upper s) = true.
Proof.
  intros c s. induction s as [|a s IH]; [discriminate|].
  cbn [has upper]. intro H. apply orb_true_iff in H as [H|H].
  - apply Ascii.eqb_eq in H. subst a. now rewrite Ascii.eqb_refl.
  - rewrite (IH H). apply orb_true_r.
Qed.

Lemma has_not_all_c : forall (p : ascii -> bool) u s,
  p u = false -> has u s = true -> all_c p s = false.
Proof.
  intros p u s Hp. induction s as [|a s IH]; [discriminate|].
  cbn [has all_c]. intro H. apply orb_true_iff in H as [H|H].
  - apply Ascii.eqb_eq in H. subst a. now rewrite Hp.
  - rewrite (IH H). apply andb_false_r.
Qed.

Lemma has_differs : forall u w lit,
  has u w = true -> has u lit = false -> (w =? lit)%string = false.
Proof.
  intros u w lit Hw Hl. apply String.eqb_neq. intro E. subst w. congruence.
Qed.

Lemma has_not_empty : forall u s, has u s = true -> (s =? "")%string = false.
Proof. intros u [|a s]; [discriminate|reflexivity]. Qed.

Lemma float_foreign_facts : forall u,
  float_foreign u = true ->
  isdigit_c u = false /\ isspace_num u = false
  /\ (u =? "_")%char = false /\ (u =? "+")%char = false /\ (u =? "-")%char = false
  /\ (u =? ".")%char = false /\ (u =? "e")%char = false /\ (u =? "E")%char = false
  /\ has (upper_c u) "INF" = false /\ has (upper_c u) "INFINITY" = false
  /\ has (upper_c u) "NAN" = false.
Proof. intro u. each_ascii u; vm_compute; intro H; try discriminate H; repeat split. Qed.

Lemma count_char_foreign : forall c,
  count_char c = false ->
  float_foreign (upper_c c) = true
  /\ (upper_c c =? ",")%char = false /\ (upper_c c =? " ")%char = false
  /\ (upper_c c =? "K")%char = false /\ (upper_c c =? "M")%char = false
  /\ (upper_c c =? "B")%char = false.
Proof. intro c. each_ascii c; vm_compute; intro H; try discriminate H; repeat split. Qed.

Lemma strip_underscores_has : forall u s prev s',
  (u =? "_")%char = false ->
  strip_underscores prev s = Some s' -> has u s = true -> has u s' = true.
Proof.
  intros u s. induction s as [|c s IH]; intros prev s' Hu Hs Hh; [discriminate|].
  cbn [strip_underscores] in Hs. cbn [has] in Hh.
  assert (Hmap : forall q, option_map (String c) (strip_underscores q s) = Some s' ->
                           has u s' = true).
  { intros q Hq. destruct (strip_underscores q s) as [t|] eqn:Ht; [|discriminate].
    injection Hq as <-. cbn [has]. apply orb_true_iff in Hh as [Hh|Hh].
    - now rewrite Hh.
    - rewrite (IH q t Hu Ht Hh). apply orb_true_r. }
  destruct (c =? "_")%char eqn:Ec.
  - apply Ascii.eqb_eq in Ec. subst c. rewrite Ascii.eqb_sym, Hu in Hh. cbn [orb] in Hh.
    destruct prev as [a|]; [|discriminate].
    destruct (isdigit_c a); [|discriminate]. now apply (IH (Some "_"%char)).
  - destruct prev as [a|]; [|now apply (Hmap (Some c))].
    each_ascii a; try (now apply (Hmap (Some c))).
    destruct (isdigit_c c); [now apply (Hmap (Some c))|discriminate].
Qed.

Lemma lstrip_by_has : forall (sp : ascii -> bool) u s,
  sp u = false -> has u s = true -> has u (lstrip_by sp s) = true.
Proof.
  intros sp u s Hu. induction s as [|c s IH]; [discriminate|].
  intro H. cbn [lstrip_by]. destruct (sp c) eqn:Hc; [|exact H].
  cbn [has] in H. apply orb_true_iff in H as [H|H]; [|now apply IH].
  apply Ascii.eqb_eq in H. congruence.
Qed.

Lemma rstrip_by_has : forall (sp : ascii -> bool) u s,
  sp u = false -> has u s = true -> has u (rstrip_by sp s) = true.
Proof.
  intros sp u s Hu. induction s as [|c s IH]; [discriminate|].
  intro H. cbn [rstrip_by]. rewrite (has_not_all_c sp u _ Hu H).
  cbn [has] in H |- *. apply orb_true_iff in H as [H|H].
  - now rewrite H.
  - rewrite (IH H). apply orb_true_r.
Qed.

Lemma scan_sign_has : forall u s,
  (u =? "+")%char = false -> (u =? "-")%char = false ->
  has u s = true -> has u (snd (scan_sign s)) = true.
Proof.
  intros u [|c s] Hp Hm H; [discriminate|].
  destruct (Ascii.ascii_dec c "-") as [->|Hn1].
  { cbn [has] in H. rewrite Ascii.eqb_sym, Hm in H. exact H. }
  destruct (Ascii.ascii_dec c "+") as [->|Hn2].
  { cbn [has] in H. rewrite Ascii.eqb_sym, Hp in H. exact H. }
  replace (scan_sign (String c s)) with (false, String c s); [exact H|].
  revert Hn1 Hn2. each_ascii c; intros; try reflexivity; congruence.
Qed.

Lemma scan_digits_has : forall u s acc n,
  isdigit_c u = false -> has u s = true -> has u (snd (scan_digits acc n s)) = true.
Proof.
  intros u s. induction s as [|c s IH]; intros acc n Hu H; [discriminate|].
  cbn [scan_digits]. destruct (isdigit_c c) eqn:Hc; [|exact H].
  apply IH; [exact Hu|]. cbn [has] in H. apply orb_true_iff in H as [H|H]; [|exact H].
  apply Ascii.eqb_eq in H. congruence.
Qed.

Lemma scan_exponent_has : forall u s,
  float_foreign u = true -> has u s = true -> has u (snd (scan_exponent s)) = true.
Proof.
  intros u s Hf H.
  destruct (float_foreign_facts u Hf) as [Hd [_ [_ [Hp [Hm [_ [He [HE _]]]]]]]].
  destruct s as [|c r]; [discriminate|]. cbn [scan_exponent].
  destruct ((c =? "e") || (c =? "E"))%char eqn:Ec; [|exact H].
  assert (Hr : has u r = true).
  { cbn [has] in H. apply orb_true_iff in H as [H|H]; [|exact H].
    apply Ascii.eqb_eq in H. subst c. rewrite He, HE in Ec. discriminate. }
  pose proof (scan_sign_has u r Hp Hm Hr) as H1.
  destruct (scan_sign r) as [neg r1]. cbn [snd] in H1.
  pose proof (scan_digits_has u r1 0%Z 0 Hd H1) as H2.
  destruct (scan_digits 0 0 r1) as [[v n] r2]. cbn [snd] in H2.
  destruct n; [exact H|exact H2].
Qed.

Lemma py_float_rejects : forall u s,
  float_foreign u = true -> has u s = true -> py_float s = Raise ValueError.
Proof.
  intros u s Hf H.
  destruct (float_foreign_facts u Hf)
    as [Hd [Hsp [Hus [Hp [Hm [Hdot [He [HE [Hinf [Hinfinity Hnan]]]]]]]]]].
  unfold py_float.
  destruct (strip_underscores None s) as [t|] eqn:Ht; [|reflexivity].
  pose proof (strip_underscores_has u s None t Hus Ht H) as H1.
  pose proof (scan_sign_has u _ Hp Hm (lstrip_by_has isspace_num u t Hsp H1)) as H2.
  destruct (scan_sign (lstrip_by isspace_num t)) as [neg s0]. cbn [snd] in H2.
  pose proof (has_upper u _ (rstrip_by_has isspace_num u s0 Hsp H2)) as Hw.
  rewrite (has_differs _ _ "INF" Hw Hinf), (has_differs _ _ "INFINITY" Hw Hinfinity),
    (has_differs _ _ "NAN" Hw Hnan). cbn [orb].
  pose proof (scan_digits_has u s0 0%Z 0 Hd H2) as H3.
  destruct (scan_digits 0 0 s0) as [[ip ni] s1]. cbn [snd] in H3.
  assert (Hend : forall fp nf s2, has u s2 = true ->
    match (ni + nf)%nat with
    | O => Raise ValueError
    | S _ =>
        let '(ex, s3) := scan_exponent s2 in
        if all_c isspace_num s3
        then Return (float_of_decimal neg fp (ex - Z.of_nat nf))
        else Raise ValueError
    end = Raise ValueError).
  { intros fp nf s2 Hs2. destruct (ni + nf)%nat; [reflexivity|].
    pose proof (scan_exponent_has u s2 Hf Hs2) as H4.
    destruct (scan_exponent s2) as [ex s3]. cbn [snd] in H4.
    now rewrite (has_not_all_c isspace_num u s3 Hsp H4). }
  destruct s1 as [|c r]; [discriminate|].
  destruct (Ascii.ascii_dec c ".") as [->|Hne].
  - assert (Hr : has u r = true).
    { cbn [has] in H3. rewrite Ascii.eqb_sym, Hdot in H3. exact H3. }
    pose proof (scan_digits_has u r ip 0 Hd Hr) as H4.
    destruct (scan_digits ip 0 r) as [[fp nf] s2]. now apply Hend.
  - revert H3. each_ascii c; intro H3; try (now apply Hend). congruence.
Qed.

Lemma py_int_rejects : forall u s,
  float_foreign u = true -> has u s = true -> py_int s = Raise ValueError.
Proof.
  intros u s Hf H.
  destruct (float_foreign_facts u Hf) as [Hd [Hsp [Hus [Hp [Hm _]]]]].
  unfold py_int.
  destruct (strip_underscores None s) as [t|] eqn:Ht; [|reflexivity].
  pose proof (strip_underscores_has u s None t Hus Ht H) as H1.
  pose proof (scan_sign_has u _ Hp Hm (lstrip_by_has isspace_num u t Hsp H1)) as H2.
  destruct (scan_sign (lstrip_by isspace_num t)) as [neg s0]. cbn [snd] in H2.
  pose proof (scan_digits_has u s0 0%Z 0 Hd H2) as H3.
  destruct (scan_digits 0 0 s0) as [[v n] s1]. cbn [snd] in H3.
  destruct n; [reflexivity|].
  now rewrite (has_not_all_c isspace_num u s1 Hsp H3).
Qed.

Lemma normalized_without : forall text,
  normalized text = without_char " " (without_char "," (upper text)).
Proof. intro text. unfold normalized. now rewrite !replace_char_by_empty. Qed.

(** X6.  A text with an ASCII character that is none of: a digit,
    whitespace, a sign, a dot, an underscore, a comma, or one of the letters
    E, I, N, F, T, Y, A, K, M, B (in either case), gives 0: a count followed
    by a word, for one. *)
Theorem format_number_foreign_character : forall text c,
  count_char c = false -> has c text = true -> format_number text = Return 0%Z.
Proof.
  intros text c Hc H.
  destruct (count_char_foreign c Hc) as [Hf [Hcomma [Hspace [HK [HM HB]]]]].
  assert (Hn : has (upper_c c) (normalized text) = true).
  { rewrite normalized_without, !has_without_char by assumption. now apply has_upper. }
  apply format_number_ValueError_default; intros.
  - apply (py_float_rejects (upper_c c)); [exact Hf|].
    now rewrite replace_char_by_empty, has_without_char.
  - apply (py_float_rejects (upper_c c)); [exact Hf|].
    now rewrite replace_char_by_empty, has_without_char.
  - apply (py_float_rejects (upper_c c)); [exact Hf|].
    now rewrite replace_char_by_empty, has_without_char.
  - now apply (py_int_rejects (upper_c c)).
Qed.

Lemma format_number_foreign_character_witness :
  format_number "1.2K views" = Return 0%Z.
Proof.
  apply (format_number_foreign_character "1.2K views" "v"); reflexivity.
Defined.

(** X7.  A text with two different suffix letters gives 0: the first
    suffix in the order K, M, B is taken, and the other letter makes
    [float] reject what is left. *)
Theorem format_number_two_suffixes : forall text,
  (has "K" (normalized text) && (has "M" (normalized text) || has "B" (normalized text)))
  || (has "M" (normalized text) && has "B" (normalized text)) = true ->
  format_number text = Return 0%Z.
Proof.
  intros text H. apply format_number_ValueError_default;
    rewrite ?contains_char_has in *; intros.
  - assert (Hmb : has "M" (normalized text) = true \/ has "B" (normalized text) = true).
    { destruct (has "M" (normalized text)); [now left|].
      destruct (has "B" (normalized text)); [now right|].
      rewrite !andb_false_r in H. discriminate. }
    destruct Hmb as [Hm|Hb].
    + apply (py_float_rejects "M"); [reflexivity|].
      now rewrite replace_char_by_empty, has_without_char.
    + apply (py_float_rejects "B"); [reflexivity|].
      now rewrite replace_char_by_empty, has_without_char.
  - apply (py_float_rejects "B"); [reflexivity|].
    rewrite replace_char_by_empty, has_without_char by reflexivity.
    destruct (has "K" (normalized text)); [discriminate|].
    destruct (has "B" (normalized text)); [reflexivity|].
    rewrite !andb_false_r in H. discriminate.
  - destruct (has "K" (normalized text)); [discriminate|].
    destruct (has "M" (normalized text)); discriminate.
  - destruct (has "K" (normalized text)); [discriminate|].
    destruct (has "M" (normalized text)); discriminate.
Qed.

Lemma format_number_two_suffixes_witness : format_number "1.5KM" = Return 0%Z.
Proof. apply format_number_two_suffixes. reflexivity. Defined.

Lemma digit_or_separator_cases : forall c,
  digit_or_separator c = true ->
  upper_c c = c
  /\ ((c =? ",")%char = true
      \/ ((c =? ",")%char = false /\ (c =? " ")%char = true)
      \/ ((c =? ",")%char = false /\ (c =? " ")%char = false /\ isdigit_c c = true)).
Proof.
  intro c. each_ascii c; vm_compute; intro H; try discriminate H;
    (split; [reflexivity|]); auto.
Qed.

Lemma isdigit_c_facts : forall c,
  isdigit_c c = true ->
  (c =? "_")%char = false /\ isspace_num c = false
  /\ (c =? "K")%char = false /\ (c =? "M")%char = false /\ (c =? "B")%char = false
  /\ (c =? ",")%char = false /\ (c =? " ")%char = false
  /\ scan_sign (String c "") = (false, String c "").
Proof. intro c. each_ascii c; vm_compute; intro H; try discriminate H; repeat split. Qed.

Lemma upper_separated : forall s, all_c digit_or_separator s = true -> upper s = s.
Proof.
  induction s as [|c s IH]; [reflexivity|]. cbn [all_c upper]. intro H.
  apply andb_true_iff in H as [Hc Hs].
  destruct (digit_or_separator_cases c Hc) as [-> _]. now rewrite IH.
Qed.

Lemma without_separators : forall s acc,
  all_c digit_or_separator s = true ->
  all_c isdigit_c (without_char " " (without_char "," s)) = true
  /\ decimal_value acc (without_char " " (without_char "," s)) = decimal_value acc s
  /\ has_digit (without_char " " (without_char "," s)) = has_digit s.
Proof.
  unfold has_digit.
  induction s as [|c s IH]; intros acc H; [repeat split|].
  cbn [all_c] in H. apply andb_true_iff in H as [Hc Hs].
  destruct (digit_or_separator_cases c Hc) as [_ [E|[[E1 E2]|[E1 [E2 E3]]]]].
  - apply Ascii.eqb_eq in E. subst c. cbn [without_char decimal_value all_c].
    change (("," =? ",")%char) with true. cbn iota.
    change (isdigit_c ",") with false. cbn iota. cbn [negb andb].
    destruct (IH acc Hs) as [H1 [H2 H3]]. rewrite H3. auto.
  - apply Ascii.eqb_eq in E2. subst c. cbn [without_char decimal_value all_c].
    change ((" " =? ",")%char) with false. cbn iota. cbn [without_char].
    change ((" " =? " ")%char) with true. cbn iota.
    change (isdigit_c " ") with false. cbn iota. cbn [negb andb].
    destruct (IH acc Hs) as [H1 [H2 H3]]. rewrite H3. auto.
  - cbn [without_char decimal_value all_c]. rewrite E1. cbn [without_char].
    rewrite E2. cbn [all_c decimal_value]. rewrite E3. cbn [negb andb].
    destruct (IH (10 * acc + digit_value c)%Z Hs) as [H1 [H2 H3]]. auto.
Qed.

Lemma strip_underscores_digits : forall d prev,
  all_c isdigit_c d = true ->
  (d = "" -> prev <> Some "_"%char) ->
  strip_underscores prev d = Some d.
Proof.
  induction d as [|c d IH]; intros prev Hd Hprev.
  - cbn [strip_underscores]. destruct prev as [a|]; [|reflexivity].
    specialize (Hprev eq_refl). each_ascii a; try reflexivity. congruence.
  - cbn [all_c] in Hd. apply andb_true_iff in Hd as [Hc Hd].
    destruct (isdigit_c_facts c Hc) as [Hus _].
    assert (Hrec : strip_underscores (Some c) d = Some d).
    { apply IH; [exact Hd|]. intros _ E. injection E as ->. discriminate. }
    cbn [strip_underscores]. rewrite Hus, Hc, Hrec.
    destruct prev as [a|]; [each_ascii a|]; reflexivity.
Qed.

Lemma scan_digits_all : forall d acc n,
  all_c isdigit_c d = true ->
  scan_digits acc n d = (decimal_value acc d, (n + String.length d)%nat, "").
Proof.
  induction d as [|c d IH]; intros acc n H.
  - cbn. now rewrite Nat.add_0_r.
  - cbn [all_c] in H. apply andb_true_iff in H as [Hc Hd].
    cbn [scan_digits decimal_value String.length]. rewrite Hc, (IH _ _ Hd).
    now rewrite Nat.add_succ_r.
Qed.

Lemma digits_have_no : forall u d,
  isdigit_c u = false -> all_c isdigit_c d = true -> has u d = false.
Proof.
  intros u d Hu. induction d as [|c d IH]; [reflexivity|].
  cbn [all_c has]. intro H. apply andb_true_iff in H as [Hc Hd].
  rewrite (IH Hd), orb_false_r. apply Ascii.eqb_neq. congruence.
Qed.

Lemma py_int_digits : forall d,
  all_c isdigit_c d = true -> (d =? "")%string = false ->
  py_int d = Return (decimal_value 0 d).
Proof.
  intros d Hd Hne. unfold py_int.
  rewrite (strip_underscores_digits d None Hd) by discriminate.
  destruct d as [|c d]; [discriminate|].
  pose proof Hd as Hd'. cbn [all_c] in Hd'. apply andb_true_iff in Hd' as [Hc _].
  destruct (isdigit_c_facts c Hc) as [_ [Hsp [_ [_ [_ [_ [_ Hsign]]]]]]].
  cbn [lstrip_by]. rewrite Hsp.
  assert (Hs : scan_sign (String c d) = (false, String c d)).
  { revert Hsign. each_ascii c; cbn; intro E; try discriminate E; reflexivity. }
  rewrite Hs, (scan_digits_all _ 0%Z 0 Hd). reflexivity.
Qed.

(** X8.  A text made of digits, commas and spaces, with a digit at least
    and no longer than 4300 characters (the length up to which [int] reads
    digits by default), gives the number that its digits write in base
    ten: the thousands separators are left out. *)
Theorem format_number_separated_digits : forall text,
  all_c digit_or_separator text = true ->
  has_digit text = true ->
  (String.length text <= 4300)%nat ->
  format_number text = Return (decimal_value 0 text).
Proof.
  intros text Hall Hdig _. unfold format_number.
  assert (Hne : (text =? "")%string = false).
  { destruct text; [discriminate Hdig|reflexivity]. }
  rewrite Hne. fold (normalized text).
  rewrite normalized_without, (upper_separated text Hall).
  destruct (without_separators text 0%Z Hall) as [Hd [Hv Hh]].
  set (d := without_char " " (without_char "," text)) in *.
  rewrite !contains_char_has, !(digits_have_no _ d) by (reflexivity || exact Hd).
  rewrite (py_int_digits d Hd), Hv; [reflexivity|].
  destruct d; [|reflexivity]. rewrite <- Hh in Hdig. discriminate Hdig.
Qed.

Lemma format_number_separated_digits_witness :
  format_number "1,234 567" = Return 1234567%Z.
Proof.
  rewrite (format_number_separated_digits "1,234 567"); try reflexivity.
  cbn. lia.
Defined.

(** ** More on the video identifier *)

Lemma contains_not_all_digits : forall a r s,
  isdigit_c a = false -> contains (String a r) s = true -> all_c isdigit_c s = false.
Proof.
  intros a r s Ha. induction s as [|c s IH]; [discriminate|].
  cbn [contains prefix all_c]. intro H. apply orb_true_iff in H as [H|H].
  - destruct (Ascii.ascii_dec a c) as [<-|]; [now rewrite Ha|discriminate].
  - rewrite (IH H). apply andb_false_r.
Qed.

Lemma split_without_separator : forall c s,
  has c s = false -> split (String c "") s = [s].
Proof.
  intros c s H. unfold split. rewrite <- (append_nil_r s) at 1.
  rewrite (split_go_head_clean c "" s "" "").
  - reflexivity.
  - apply contains_char_all_c. now rewrite contains_char_has.
Qed.

Lemma extractors_agree : forall url,
  _extract_video_id url
  = match extract_video_id url with
    | Some id => id
    | None => ""
    end.
Proof.
  intro url. unfold _extract_video_id, extract_video_id.
  destruct (url =? "")%string; [reflexivity|].
  destruct (contains "/video/" url).
  { destruct (nth_error (split "/video/" url) 1) as [part|]; [|reflexivity].
    destruct (nth_error (split "?" part) 0); reflexivity. }
  destruct (contains "tiktok.com" url) eqn:Ht; [|reflexivity].
  destruct (contains "/" url) eqn:Hs; cbn [andb].
  { destruct (find _ _); reflexivity. }
  rewrite contains_char_has in Hs. rewrite (split_without_separator "/" url Hs).
  cbn [find]. unfold isdigit.
  rewrite (contains_not_all_digits "t" "iktok.com" url eq_refl Ht), andb_false_r.
  reflexivity.
Qed.

(** X9.  The two extractors agree: [CSVExporter._extract_video_id] gives
    what [extract_video_id] gives, with the empty text where the latter
    gives [None]. *)
Theorem extract_video_id_agree : forall url,
  _extract_video_id url
  = match extract_video_id url with
    | Some id => id
    | None => ""
    end.
Proof. exact extractors_agree. Qed.

(** X10.  Without the marker, an identifier is found only in a URL with
    [tiktok.com] in it, and it is one of the pieces between slashes, made
    of digits only and more than ten of them. *)
Theorem extract_video_id_fallback : forall url id,
  contains "/video/" url = false ->
  extract_video_id url = Some id ->
  contains "tiktok.com" url = true
  /\ In id (split "/" url)
  /\ isdigit id = true
  /\ (10 < len id)%Z.
Proof.
  intros url id Hm. unfold extract_video_id. rewrite Hm.
  destruct (url =? "")%string; [discriminate|].
  destruct (contains "tiktok.com" url); [|discriminate].
  destruct (contains "/" url); cbn [andb]; [|discriminate].
  destruct (find _ (split "/" url)) as [part|] eqn:Hf; [|discriminate].
  intro E. injection E as <-.
  apply find_some in Hf as [Hin Hp]. apply andb_true_iff in Hp as [Hd Hl].
  apply Z.ltb_lt in Hl. auto.
Qed.

Lemma extract_video_id_fallback_witness :
  In "72345678901234" (split "/" "https://www.tiktok.com/@u/72345678901234").
Proof.
  exact (proj1 (proj2 (extract_video_id_fallback
    "https://www.tiktok.com/@u/72345678901234" "72345678901234" eq_refl eq_refl))).
Defined.

Lemma split_go_two_pieces : forall c t s cur,
  contains (String c t) s = true ->
  exists p q l, split_go (String c t) 0 cur s = p :: q :: l.
Proof.
  intros c t s. induction s as [|a s IH]; intros cur H; [discriminate|].
  cbn [contains] in H. cbn [split_go].
  destruct (prefix (String c t) (String a s)).
  - destruct (split_go (String c t) (String.length (String c t) - 1) "" s)
      as [|q l] eqn:E.
    + exfalso. revert E. generalize (String.length (String c t) - 1) "".
      clear. induction s as [|b s IH]; intros n cur; [discriminate|].
      cbn [split_go]. destruct n; [|apply IH].
      destruct (prefix _ _); [discriminate|apply IH].
    + now exists cur, q, l.
  - cbn [orb] in H. apply IH. exact H.
Qed.

Lemma has_append : forall c a b, has c (a ++ b) = has c a || has c b.
Proof.
  intros c a b. induction a as [|x a IH]; [reflexivity|].
  cbn [append has]. now rewrite IH, orb_assoc.
Qed.

Lemma split_go_head_free : forall q s cur x,
  nth_error (split_go (String q "") 0 cur s) 0 = Some x ->
  has q cur = false -> has q x = false.
Proof.
  intros q s. induction s as [|c s IH]; intros cur x H Hcur.
  - cbn in H. injection H as <-. exact Hcur.
  - cbn [split_go prefix] in H. destruct (Ascii.ascii_dec q c) as [->|Hne].
    + replace (prefix "" s) with true in H by (destruct s; reflexivity).
      cbn in H. injection H as <-. exact Hcur.
    + apply (IH _ _ H). rewrite has_append, Hcur. cbn [has orb].
      rewrite orb_false_r. apply Ascii.eqb_neq. congruence.
Qed.

Lemma marker_gives_id : forall url,
  contains "/video/" url = true ->
  exists id,
    extract_video_id url = Some id
    /\ _extract_video_id url = id
    /\ has "?" id = false.
Proof.
  intros url H.
  assert (Hne : (url =? "")%string = false) by (destruct url; [discriminate|reflexivity]).
  destruct (split_go_two_pieces "/" "video/" url "" H) as [p [part [l Hs]]].
  destruct (split_go_head_extends "?" part "") as [id Hid]. cbn [append] in Hid.
  exists id. rewrite extractors_agree.
  assert (E : extract_video_id url = Some id).
  { unfold extract_video_id. rewrite Hne, H. unfold split at 1. rewrite Hs.
    change (nth_error (p :: part :: l) 1) with (Some part).
    unfold split. now rewrite Hid. }
  rewrite E. repeat split.
  apply (split_go_head_free "?" part "" id Hid). reflexivity.
Qed.

(** X11.  For a URL with the marker in it an identifier is always found,
    the same by both extractors, and there is no question mark in it: the
    look-up of the second piece never fails. *)
Theorem extract_video_id_with_marker : forall url,
  contains "/video/" url = true ->
  exists id,
    extract_video_id url = Some id
    /\ _extract_video_id url = id
    /\ has "?" id = false.
Proof. exact marker_gives_id. Qed.

Lemma extract_video_id_with_marker_witness :
  exists id,
    extract_video_id "https://www.tiktok.com/@u/video/123?lang=fr&x=?" = Some id
    /\ _extract_video_id "https://www.tiktok.com/@u/video/123?lang=fr&x=?" = id
    /\ has "?" id = false.
Proof.
  apply (extract_video_id_with_marker "https://www.tiktok.com/@u/video/123?lang=fr&x=?").
  reflexivity.
Defined.

(** ** Properties of [add_video_data] and [get_stats] *)

Lemma suffix_branch_raises : forall s k e,
  except_ValueError_TypeError (x <- py_float s ;; int_of_float (fmul x k)) (Return 0%Z)
    = Raise e ->
  e = OverflowError.
Proof.
  intros s k e. destruct (py_float s) as [x|err] eqn:Hf; cbn [bind].
  - destruct (fmul x k); cbn; intro H; try discriminate H. now injection H as <-.
  - rewrite (py_float_raises_ValueError s err Hf). discriminate.
Qed.

Lemma format_number_raises : forall text e,
  format_number text = Raise e -> e = OverflowError.
Proof.
  intros text e. unfold format_number.
  destruct (text =? "")%string; [discriminate|].
  destruct (contains "K" _); [apply suffix_branch_raises|].
  destruct (contains "M" _); [apply suffix_branch_raises|].
  destruct (contains "B" _); [apply suffix_branch_raises|].
  destruct (py_int _) as [n|err] eqn:Hi; [discriminate|].
  rewrite (py_int_raises_ValueError _ err Hi). discriminate.
Qed.

Lemma add_video_data_cases : forall cfg now rows vd,
  (snd (add_video_data cfg now rows vd) = true ->
   exists p,
     fst (add_video_data cfg now rows vd) = (rows ++ [p])%list
     /\ _process_video_data cfg now vd = Return p
     /\ video_url p = raw_video_url vd
     /\ (raw_video_url vd =? "")%string = false
     /\ video_id p = _extract_video_id (raw_video_url vd)
     /\ description p = clean_text (raw_description vd))
  /\ (snd (add_video_data cfg now rows vd) = false ->
      fst (add_video_data cfg now rows vd) = rows
      /\ (raw_video_url vd = ""
          \/ format_number (raw_views_count vd) = Raise OverflowError
          \/ format_number (raw_likes_count vd) = Raise OverflowError
          \/ format_number (raw_comments_count vd) = Raise OverflowError)).
Proof.
  intros cfg now rows vd. unfold add_video_data.
  destruct (raw_video_url vd =? "")%string eqn:Hu.
  { split; [discriminate|]. intros _. split; [reflexivity|].
    left. now apply String.eqb_eq. }
  unfold _process_video_data.
  destruct (format_number (raw_views_count vd)) as [v|e] eqn:Hv.
  2:{ split; [discriminate|]. intros _. split; [reflexivity|].
      right. left. now rewrite (format_number_raises _ e Hv). }
  destruct (format_number (raw_likes_count vd)) as [l|e] eqn:Hl.
  2:{ split; [discriminate|]. intros _. split; [reflexivity|].
      right. right. left. now rewrite (format_number_raises _ e Hl). }
  destruct (format_number (raw_comments_count vd)) as [c|e] eqn:Hc.
  2:{ split; [discriminate|]. intros _. split; [reflexivity|].
      right. right. right. now rewrite (format_number_raises _ e Hc). }
  cbn [bind fst snd]. split; [|discriminate].
  intros _. eexists. repeat split.
Qed.

(** X12.  [add_video_data] answers [True] exactly when it has added one
    row at the end, whose URL is the given one, whose identifier is
    computed from that URL and whose description is the cleaned one.  It
    answers [False], leaving the rows as they are, exactly when the URL is
    empty or a count text makes [format_number] raise [OverflowError]. *)
Theorem add_video_data_contract : forall cfg now rows vd,
  (snd (add_video_data cfg now rows vd) = true ->
   exists p,
     fst (add_video_data cfg now rows vd) = (rows ++ [p])%list
     /\ _process_video_data cfg now vd = Return p
     /\ video_url p = raw_video_url vd
     /\ (raw_video_url vd =? "")%string = false
     /\ video_id p = _extract_video_id (raw_video_url vd)
     /\ description p = clean_text (raw_description vd))
  /\ (snd (add_video_data cfg now rows vd) = false ->
      fst (add_video_data cfg now rows vd) = rows
      /\ (raw_video_url vd = ""
          \/ format_number (raw_views_count vd) = Raise OverflowError
          \/ format_number (raw_likes_count vd) = Raise OverflowError
          \/ format_number (raw_comments_count vd) = Raise OverflowError)).
Proof. exact add_video_data_cases. Qed.

Lemma total_from : forall (field : video_record -> Z) rows a,
  fold_left (fun acc video => (acc + field video)%Z) rows a
  = (a + total field rows)%Z.
Proof.
  intros field rows. unfold total.
  induction rows as [|r rows IH]; intro a; cbn [fold_left]; [lia|].
  rewrite (IH (a + field r)%Z), (IH (0 + field r)%Z). lia.
Qed.

Lemma total_snoc : forall (field : video_record -> Z) rows p,
  total field (rows ++ [p]) = (total field rows + field p)%Z.
Proof.
  intros field rows p. unfold total at 1. rewrite fold_left_app. cbn [fold_left].
  fold (total field rows). reflexivity.
Qed.

Lemma get_stats_totals : forall rows,
  total_videos (get_stats rows) = Z.of_nat (List.length rows)
  /\ total_views (get_stats rows) = total views_count rows
  /\ total_likes (get_stats rows) = total likes_count rows
  /\ total_comments (get_stats rows) = total comments_count rows.
Proof. intros [|r rows]; repeat split. Qed.

(** X13.  For rows that are not empty, each average of [get_stats] is the
    total divided by the number of rows and rounded down: [avg * n <= total
    < avg * n + n], also when the total is negative. *)
Theorem get_stats_averages : forall rows,
  rows <> [] ->
  let s := get_stats rows in
  let n := Z.of_nat (List.length rows) in
  total_videos s = n
  /\ (exists a, avg_views s = Some a
        /\ (a * n <= total_views s < a * n + n)%Z)
  /\ (exists a, avg_likes s = Some a
        /\ (a * n <= total_likes s < a * n + n)%Z)
  /\ (exists a, avg_comments s = Some a
        /\ (a * n <= total_comments s < a * n + n)%Z).
Proof.
  intros rows Hne. destruct rows as [|r rows]; [congruence|]. cbn zeta.
  set (n := Z.of_nat (List.length (r :: rows))).
  assert (Hn : (0 < n)%Z) by (unfold n; cbn [List.length]; lia).
  assert (Hdiv : forall t, (t / n * n <= t < t / n * n + n)%Z).
  { intro t. pose proof (Z.div_mod t n). pose proof (Z.mod_pos_bound t n Hn). nia. }
  cbn [get_stats total_videos avg_views avg_likes avg_comments
       total_views total_likes total_comments].
  fold n. split; [reflexivity|].
  repeat split; eexists; (split; [reflexivity|apply Hdiv]).
Qed.

Lemma get_stats_averages_witness :
  exists a, avg_views (get_stats
              [ {| video_id := "1"; video_url := "u"; description := ""; thumbnail_url := "";
                   views_count := 3; likes_count := 0; comments_count := 0;
                   scraped_at := ""; account_username := "" |};
                {| video_id := "2"; video_url := "v"; description := ""; thumbnail_url := "";
                   views_count := 4; likes_count := 0; comments_count := 0;
                   scraped_at := ""; account_username := "" |} ]) = Some a
            /\ (a * 2 <= 7 < a * 2 + 2)%Z.
Proof.
  refine (proj1 (proj2 (get_stats_averages _ _))). discriminate.
Defined.

(** X14.  After [add_video_data] has answered [True], [get_stats] counts
    one more video and each total has grown by the count of the new
    row. *)
Theorem get_stats_after_add : forall cfg now rows vd,
  snd (add_video_data cfg now rows vd) = true ->
  exists p,
    _process_video_data cfg now vd = Return p
    /\ total_videos (get_stats (fst (add_video_data cfg now rows vd)))
       = (total_videos (get_stats rows) + 1)%Z
    /\ total_views (get_stats (fst (add_video_data cfg now rows vd)))
       = (total_views (get_stats rows) + views_count p)%Z
    /\ total_likes (get_stats (fst (add_video_data cfg now rows vd)))
       = (total_likes (get_stats rows) + likes_count p)%Z
    /\ total_comments (get_stats (fst (add_video_data cfg now rows vd)))
       = (total_comments (get_stats rows) + comments_count p)%Z.
Proof.
  intros cfg now rows vd H.
  destruct (proj1 (add_video_data_cases cfg now rows vd) H) as [p [Hrows [Hp _]]].
  exists p. split; [exact Hp|]. rewrite Hrows.
  destruct (get_stats_totals (rows ++ [p])) as [-> [-> [-> ->]]].
  destruct (get_stats_totals rows) as [-> [-> [-> ->]]].
  rewrite !total_snoc, length_app. cbn [List.length]. repeat split. lia.
Qed.

Lemma get_stats_after_add_witness :
  total_videos (get_stats (fst (add_video_data sample_config "t" []
                                  (raw_of_counts "1.2K" "150" "25")))) = 1%Z.
Proof.
  destruct (get_stats_after_add sample_config "t" [] (raw_of_counts "1.2K" "150" "25")
              eq_refl) as [p [_ [H _]]].
  exact H.
Defined.

(** ** More on the crawl loop *)

Lemma extends_by_refl : forall st, extends_by st st [] [].
Proof.
  intro st. unfold extends_by. rewrite !app_nil_r. cbn.
  split; [reflexivity|]. split; [reflexivity|]. split; [lia|].
  split; [intros u []|]. split; [constructor|]. split; [intros u []|lia].
Qed.

Lemma commit_item_extends : forall cfg now st video_data additional_data,
  exists new_urls new_rows,
    extends_by st (commit_item cfg now st video_data additional_data) new_urls new_rows
    /\ List.length new_urls <= 1.
Proof.
  intros cfg now st video_data additional_data.
  assert (Hsame : exists new_urls new_rows,
            extends_by st st new_urls new_rows /\ List.length new_urls <= 1).
  { exists [], []. split; [apply extends_by_refl|cbn; lia]. }
  unfold commit_item.
  destruct video_data as [vd|]; [|exact Hsame].
  destruct (raw_video_url vd =? "")%string; [exact Hsame|].
  destruct (mem (raw_video_url vd) (scraped_videos st)) eqn:Hmem; [exact Hsame|].
  assert (Hnew : ~ In (raw_video_url vd) (scraped_videos st)).
  { rewrite <- mem_In, Hmem. discriminate. }
  match goal with
  | |- context [add_video_data cfg now (data st) ?v] =>
      destruct (add_video_data_rows cfg now (data st) v) as [E|[p [E Hp]]]
  end.
  - exists [raw_video_url vd], []. unfold extends_by.
    cbn [scraped_videos data scraped_count]. rewrite E, app_nil_r. cbn.
    repeat split; auto; try lia.
    + intros u [<-|[]]. exact Hnew.
    + constructor; [intros []|constructor].
    + intros u [].
  - exists [raw_video_url vd], [p]. unfold extends_by.
    cbn [scraped_videos data scraped_count]. rewrite E. cbn [raw_video_url] in Hp. cbn.
    repeat split; auto; try lia.
    + intros u [<-|[]]. exact Hnew.
    + constructor; [intros []|constructor].
    + intros u [<-|[]]. left. now rewrite Hp.
Qed.

Lemma NoDup_append : forall (A : Type) (l1 l2 : list A),
  NoDup l1 -> NoDup l2 -> (forall x, In x l2 -> ~ In x l1) -> NoDup (l1 ++ l2)%list.
Proof.
  intros A l1 l2 H1 H2 Hdis. induction H1 as [|x l Hx Hl IH]; [exact H2|].
  cbn. constructor.
  - rewrite in_app_iff. intros [H|H]; [contradiction|]. apply (Hdis x H). now left.
  - apply IH. intros y Hy Hin. apply (Hdis y Hy). now right.
Qed.

Lemma extends_by_trans : forall st st1 st2 u1 r1 u2 r2,
  extends_by st st1 u1 r1 -> extends_by st1 st2 u2 r2 ->
  extends_by st st2 (u1 ++ u2) (r1 ++ r2).
Proof.
  intros st st1 st2 u1 r1 u2 r2 [Hs1 [Hd1 [Hc1 [Hn1 [Hnd1 [Hi1 Hl1]]]]]]
    [Hs2 [Hd2 [Hc2 [Hn2 [Hnd2 [Hi2 Hl2]]]]]].
  unfold extends_by. rewrite Hs2, Hs1, Hd2, Hd1, Hc2, Hc1, !app_assoc, !length_app.
  repeat split; try lia.
  - intros u Hu. apply in_app_or in Hu as [Hu|Hu]; [now apply Hn1|].
    intro Hin. apply (Hn2 u Hu). rewrite Hs1. apply in_or_app. now left.
  - apply NoDup_append; [exact Hnd1|exact Hnd2|].
    intros x Hx Hin. apply (Hn2 x Hx). rewrite Hs1. apply in_or_app. now right.
  - unfold urls in *. rewrite map_app. intros u Hu.
    apply in_app_or in Hu as [Hu|Hu]; apply in_or_app; [left|right]; auto.
Qed.

Lemma crawl_loop_extends : forall cfg clock items remaining i st,
  exists new_urls new_rows,
    extends_by st (fst (crawl_loop cfg clock items remaining i st)) new_urls new_rows
    /\ List.length new_urls <= remaining.
Proof.
  intros cfg clock items remaining.
  induction remaining as [|r IH]; intros i st.
  - exists [], []. split; [apply extends_by_refl|cbn; lia].
  - assert (Hstep : forall st1 u1 r1,
      extends_by st st1 u1 r1 -> List.length u1 <= 1 ->
      exists new_urls new_rows,
        extends_by st (fst (crawl_loop cfg clock items r (S i) st1)) new_urls new_rows
        /\ List.length new_urls <= S r).
    { intros st1 u1 r1 H1 Hl1. destruct (IH (S i) st1) as [u2 [r2 [H2 Hl2]]].
      exists (u1 ++ u2)%list, (r1 ++ r2)%list. split.
      - now apply (extends_by_trans st st1).
      - rewrite length_app. lia. }
    assert (Hstop : forall st1 u1 r1,
      extends_by st st1 u1 r1 -> List.length u1 <= 1 ->
      exists new_urls new_rows,
        extends_by st st1 new_urls new_rows /\ List.length new_urls <= S r).
    { intros st1 u1 r1 H1 Hl1. exists u1, r1. split; [exact H1|lia]. }
    pose proof (extends_by_refl st) as Hrefl.
    cbn [crawl_loop]. destruct (items i) as [|e|el additional_data slept].
    + apply (Hstop st [] [] Hrefl). cbn. lia.
    + destruct (is_Exception e).
      * apply (Hstep st [] [] Hrefl). cbn. lia.
      * apply (Hstop st [] [] Hrefl). cbn. lia.
    + destruct (commit_item_extends cfg (clock i) st
                  (extract_video_data cfg (clock i) el) additional_data)
        as [u1 [r1 [H1 Hl1]]].
      destruct slept as [e|]; [destruct (is_Exception e)|].
      * now apply (Hstep _ u1 r1).
      * now apply (Hstop _ u1 r1).
      * now apply (Hstep _ u1 r1).
Qed.

(** X15.  From any state, the crawl loop only adds: the URLs visited
    before and the rows present before stay in front, in their order; the
    URLs it adds were not visited before and are all different; every row
    it adds has one of these URLs; [scraped_count] grows by the number of
    added URLs, which is at most the number of iterations, and the number
    of added rows is at most that. *)
Theorem crawl_loop_only_adds : forall cfg clock items remaining i st,
  exists new_urls new_rows,
    extends_by st (fst (crawl_loop cfg clock items remaining i st)) new_urls new_rows
    /\ List.length new_urls <= remaining.
Proof. exact crawl_loop_extends. Qed.

(** ** Properties of the extractors *)

Lemma except_Exception_default : forall (A : Type) (m : outcome A) (d : A) (e : exn),
  except_Exception m (fun _ => Return d) = Raise e -> is_Exception e = false.
Proof.
  intros A [a|e'] d e; cbn [except_Exception]; [discriminate|].
  destruct (is_Exception e') eqn:E; [discriminate|]. intro H. now injection H as <-.
Qed.

Lemma except_Exception_return : forall (A : Type) (m : outcome A) (d a : A),
  except_Exception m (fun _ => Return d) = Return a ->
  m = Return a \/ (a = d /\ exists e, m = Raise e /\ is_Exception e = true).
Proof.
  intros A [a'|e] d a; cbn [except_Exception]; [intro H; now left|].
  destruct (is_Exception e) eqn:E; [|discriminate].
  intro H. injection H as <-. right. split; [reflexivity|]. now exists e.
Qed.

Lemma contains_append_left : forall sub pre s,
  contains sub s = true -> contains sub (pre ++ s) = true.
Proof.
  intros sub pre s H. induction pre as [|c pre IH]; [exact H|].
  cbn [append contains]. rewrite IH. apply orb_true_r.
Qed.

Lemma extract_video_url_loop_result : forall element selectors u,
  extract_video_url_loop element selectors = Return (Some u) ->
  contains "/video/" u = true /\ startswith "/" u = false.
Proof.
  intros element selectors u. induction selectors as [|selector rest IH]; [discriminate|].
  cbn [extract_video_url_loop].
  destruct (query_selector element selector) as [[link|]|e]; cbn [bind];
    [|exact IH|discriminate].
  destruct (get_attribute link "href") as [[h|]|e]; cbn [bind]; [|exact IH|discriminate].
  destruct (negb (h =? "")%string && contains "/video/" h) eqn:Hh; [|exact IH].
  apply andb_true_iff in Hh as [_ Hc]. clear IH.
  destruct (startswith "/" h) eqn:Hs; intro E; injection E as <-.
  - split; [exact (contains_append_left "/video/" "https://www.tiktok.com" h Hc)|reflexivity].
  - split; [exact Hc|exact Hs].
Qed.

(** X16.  A link that [extract_video_url] returns has the marker in it
    and does not begin with a slash: a path is completed with the site's
    address.  The function does not let an [Exception] through. *)
Theorem extract_video_url_absolute : forall element,
  (forall u, extract_video_url element = Return (Some u) ->
     contains "/video/" u = true /\ startswith "/" u = false)
  /\ (forall e, extract_video_url element = Raise e -> is_Exception e = false).
Proof.
  intro element. unfold extract_video_url. split.
  - intros u H. apply except_Exception_return in H as [H|[H _]]; [|discriminate].
    now apply (extract_video_url_loop_result element link_selectors).
  - intros e H. now apply except_Exception_default in H.
Qed.

Lemma isspace_not_digit : forall c, isspace_c c = true -> negb (isdigit_c c) = true.
Proof. intro c. each_ascii c; vm_compute; trivial. Qed.

Lemma lstrip_by_all_c_same : forall (p sp : ascii -> bool) s,
  (forall c, sp c = true -> p c = true) ->
  all_c p (lstrip_by sp s) = all_c p s.
Proof.
  intros p sp s H. induction s as [|c s IH]; [reflexivity|].
  cbn [lstrip_by]. destruct (sp c) eqn:Hc; [|reflexivity].
  cbn [all_c]. now rewrite (H c Hc), IH.
Qed.

Lemma rstrip_by_all_c_same : forall (p sp : ascii -> bool) s,
  (forall c, sp c = true -> p c = true) ->
  all_c p (rstrip_by sp s) = all_c p s.
Proof.
  intros p sp s H. induction s as [|c s IH]; [reflexivity|].
  cbn [rstrip_by]. destruct (all_c sp (String c s)) eqn:Ha.
  - symmetry. now apply (all_c_impl sp p).
  - cbn [all_c]. now rewrite IH.
Qed.

Lemma has_digit_strip : forall s, has_digit (strip s) = has_digit s.
Proof.
  intro s. unfold has_digit, strip.
  rewrite rstrip_by_all_c_same, lstrip_by_all_c_same by apply isspace_not_digit.
  reflexivity.
Qed.

Lemma first_text_result : forall usable root selectors t,
  first_text usable root selectors = Return (Some t) ->
  exists raw, usable raw = true /\ t = strip raw.
Proof.
  intros usable root selectors t. induction selectors as [|selector rest IH]; [discriminate|].
  cbn [first_text].
  destruct (root selector) as [[el|]|e]; cbn [bind]; [|exact IH|discriminate].
  destruct (inner_text el) as [text|e]; cbn [bind]; [|discriminate].
  destruct (usable text) eqn:Hu; [|exact IH].
  intro E. injection E as <-. now exists text.
Qed.

Lemma first_count_has_digit : forall root selectors found,
  first_text usable_count root selectors = Return found ->
  has_digit (or_default "0" found) = true.
Proof.
  intros root selectors [t|] H; [|reflexivity].
  destruct (first_text_result _ _ _ _ H) as [raw [Hu ->]].
  unfold usable_count in Hu. apply andb_true_iff in Hu as [_ Hd].
  cbn [or_default]. now rewrite has_digit_strip.
Qed.

Lemma extract_count_has_digit : forall root selectors r,
  extract_count root selectors = Return r -> has_digit r = true.
Proof.
  intros root selectors r H. unfold extract_count in H.
  apply except_Exception_return in H as [H|[-> _]]; [|reflexivity].
  destruct (first_text usable_count root selectors) as [found|e] eqn:E; [|discriminate].
  cbn [bind] in H. injection H as <-. now apply (first_count_has_digit root selectors).
Qed.

Lemma extract_views_has_digit : forall element r,
  extract_views_from_grid element = Return r -> has_digit r = true.
Proof.
  intros element r H. unfold extract_views_from_grid in H.
  apply except_Exception_return in H as [H|[-> _]]; [|reflexivity].
  destruct (first_text usable_count (query_selector element) view_selectors)
    as [[t|]|e] eqn:E; cbn [bind] in H; [| |discriminate].
  - injection H as <-. exact (first_count_has_digit _ _ (Some t) E).
  - destruct (query_selector element "xpath=..") as [[p|]|e]; cbn [bind] in H;
      [| |discriminate].
    + destruct (first_text usable_count (query_selector p) view_selectors)
        as [found|e] eqn:E2; cbn [bind] in H; [|discriminate].
      injection H as <-. now apply (first_count_has_digit _ _ found E2).
    + now injection H as <-.
Qed.

(** X17.  The text that a count extractor returns, for the views of the
    grid, the likes or the comments, has a digit in it: it is the stripped
    text of an element with a digit, or "0".  No count extractor lets an
    [Exception] through. *)
Theorem count_extractors_give_digits : forall (element : node)
  (page : string -> outcome (option node)),
  (forall r, extract_views_from_grid element = Return r -> has_digit r = true)
  /\ (forall r, extract_likes element = Return r -> has_digit r = true)
  /\ (forall r, extract_comments element = Return r -> has_digit r = true)
  /\ (forall r, extract_likes_from_video page = Return r -> has_digit r = true)
  /\ (forall r, extract_comments_from_video page = Return r -> has_digit r = true)
  /\ (forall e, extract_views_from_grid element = Raise e -> is_Exception e = false)
  /\ (forall e, extract_likes_from_video page = Raise e -> is_Exception e = false)
  /\ (forall e, extract_comments_from_video page = Raise e -> is_Exception e = false).
Proof.
  intros element page.
  split; [apply extract_views_has_digit|].
  split; [apply extract_count_has_digit|].
  split; [apply extract_count_has_digit|].
  split; [apply extract_count_has_digit|].
  split; [apply extract_count_has_digit|].
  split; [intros e H; now apply except_Exception_default in H|].
  split; intros e H; now apply except_Exception_default in H.
Qed.

(** X18.  In the selector loop of the text extractors the first usable
    candidate wins: when each selector before [selector] finds nothing
    usable and [selector] finds an element with a usable text, the result is
    that text, stripped, whatever the later selectors would find or
    raise. *)
Theorem first_text_first_match : forall usable root before selector after el text,
  (forall s, In s before -> first_text usable root [s] = Return None) ->
  root selector = Return (Some el) ->
  inner_text el = Return text ->
  usable text = true ->
  first_text usable root (before ++ selector :: after) = Return (Some (strip text)).
Proof.
  intros usable root before selector after el text Hbefore Hsel Htext Hus.
  induction before as [|s before IH].
  - cbn [app first_text]. rewrite Hsel. cbn [bind]. rewrite Htext. cbn [bind].
    now rewrite Hus.
  - pose proof (Hbefore s (or_introl eq_refl)) as Hs. cbn [first_text] in Hs.
    cbn [app first_text].
    destruct (root s) as [[el'|]|e]; cbn [bind] in Hs |- *; [| |discriminate].
    + destruct (inner_text el') as [t|e]; cbn [bind] in Hs |- *; [|discriminate].
      destruct (usable t); [discriminate|].
      apply IH. intros s' Hs'. apply Hbefore. now right.
    + apply IH. intros s' Hs'. apply Hbefore. now right.
Qed.

Lemma first_text_first_match_witness :
  first_text usable_count
    (fun s => if (s =? "strong")%string
              then Return (Some (Node (Return " 1.2K ") (fun _ => Return None)
                                      (fun _ => Return None)))
              else if (s =? "[data-e2e=" ++ quoted "video-views" ++ "]")%string
                   then Raise (RuntimeError "detached")
                   else Return None)
    [ "[data-e2e=" ++ quoted "browse-like-count" ++ "]";
      "[data-e2e=" ++ quoted "like-count" ++ "]";
      "strong";
      "[data-e2e=" ++ quoted "video-views" ++ "]" ]
  = Return (Some "1.2K").
Proof.
  refine (first_text_first_match usable_count _
            [ "[data-e2e=" ++ quoted "browse-like-count" ++ "]";
              "[data-e2e=" ++ quoted "like-count" ++ "]" ]
            "strong" [ "[data-e2e=" ++ quoted "video-views" ++ "]" ]
            (Node (Return " 1.2K ") (fun _ => Return None) (fun _ => Return None))
            " 1.2K " _ _ _ _); try reflexivity.
  intros s [<-|[<-|[]]]; reflexivity.
Defined.

(** X19.  [extract_data_from_individual_video] does not let an [Exception]
    through; the likes and the comments it returns have a digit in them;
    and when going to the video, or going back from it, raises an
    [Exception], the three fields it returns are the defaults, whatever
    the page showed. *)
Theorem extract_data_from_individual_video_defaults : forall goto page go_back,
  let r := extract_data_from_individual_video goto page go_back in
  (forall e, r = Raise e -> is_Exception e = false)
  /\ (forall d, r = Return d ->
        has_digit (d_likes_count d) = true /\ has_digit (d_comments_count d) = true)
  /\ (forall e d,
        is_Exception e = true ->
        goto = Raise e \/ go_back = Raise e ->
        r = Return d ->
        d = {| d_description := ""; d_likes_count := "0"; d_comments_count := "0" |}).
Proof.
  intros goto page go_back. cbn zeta. unfold extract_data_from_individual_video.
  split; [intros e H; now apply except_Exception_default in H|].
  split.
  - intros d H. apply except_Exception_return in H as [H|[-> _]]; [|split; reflexivity].
    destruct goto as [[]|e]; cbn [bind] in H; [|discriminate].
    destruct (extract_description_from_video page) as [description|e];
      cbn [bind] in H; [|discriminate].
    destruct (extract_likes_from_video page) as [likes|e] eqn:El;
      cbn [bind] in H; [|discriminate].
    destruct (extract_comments_from_video page) as [comments|e] eqn:Ec;
      cbn [bind] in H; [|discriminate].
    destruct go_back as [[]|e]; cbn [bind] in H; [|discriminate].
    injection H as <-. cbn [d_likes_count d_comments_count]. split.
    + now apply (extract_count_has_digit page like_selectors).
    + now apply (extract_count_has_digit page comment_selectors).
  - intros e d He Hfail H.
    apply except_Exception_return in H as [H|[-> _]]; [|reflexivity].
    destruct Hfail as [-> | ->]; [discriminate H|].
    destruct goto as [[]|e0]; cbn [bind] in H; [|discriminate].
    destruct (extract_description_from_video page); cbn [bind] in H; [|discriminate].
    destruct (extract_likes_from_video page); cbn [bind] in H; [|discriminate].
    destruct (extract_comments_from_video page); cbn [bind] in H; discriminate.
Qed.

Lemma first_elements_result : forall q selectors r,
  first_elements q selectors = Return r ->
  r = [] \/ exists sel, In sel selectors /\ q sel = Return r.
Proof.
  intros q selectors r. induction selectors as [|selector rest IH].
  - intro H. injection H as <-. now left.
  - cbn [first_elements]. destruct (q selector) as [[|x l]|e] eqn:E; cbn [bind].
    + intro H. destruct (IH H) as [->|[sel [Hin Hq]]]; [now left|].
      right. exists sel. split; [now right|exact Hq].
    + intro H. injection H as <-. right. exists selector. split; [now left|exact E].
    + discriminate.
Qed.

Lemma first_elements_first : forall q before selector after r,
  (forall s, In s before -> q s = Return []) ->
  q selector = Return r -> r <> [] ->
  first_elements q (before ++ selector :: after) = Return r.
Proof.
  intros q before selector after r Hb Hs Hr. induction before as [|s before IH].
  - cbn [app first_elements]. rewrite Hs. cbn [bind]. destruct r; [congruence|reflexivity].
  - cbn [app first_elements]. rewrite (Hb s (or_introl eq_refl)). cbn [bind].
    apply IH. intros s' Hs'. apply Hb. now right.
Qed.

(** X20.  [get_visible_video_elements] gives the elements of the first of
    its seven selectors that finds any, without asking the later ones; what
    it returns is the empty list or what one of its selectors finds; it
    turns an [Exception] into the empty list. *)
Theorem get_visible_video_elements_first : forall q,
  (forall before selector after r,
     video_selectors = (before ++ selector :: after)%list ->
     (forall s, In s before -> q s = Return []) ->
     q selector = Return r -> r <> [] ->
     get_visible_video_elements q = Return r)
  /\ (forall r, get_visible_video_elements q = Return r ->
        r = [] \/ exists sel, In sel video_selectors /\ q sel = Return r)
  /\ (forall e, get_visible_video_elements q = Raise e -> is_Exception e = false).
Proof.
  intro q. unfold get_visible_video_elements. split; [|split].
  - intros before selector after r Hsel Hb Hs Hr.
    rewrite Hsel, (first_elements_first q before selector after r Hb Hs Hr). reflexivity.
  - intros r H. apply except_Exception_return in H as [H|[-> _]]; [|now left].
    now apply first_elements_result.
  - intros e H. now apply except_Exception_default in H.
Qed.

(** X21.  What [extract_video_data] returns for an element is what the
    record-level function gives for the three things it reads from the
    element; its URL has the marker in it, so that the exporter finds an
    identifier without a question mark in it; its views have a digit; its
    likes and comments are "0" and its description is empty. *)
Theorem extract_video_data_of_node_sound : forall cfg now video_element vd,
  extract_video_data_of_node cfg now video_element = Return (Some vd) ->
  (exists el, el_video_url el = Some (raw_video_url vd)
              /\ extract_video_data cfg now el = Some vd)
  /\ contains "/video/" (raw_video_url vd) = true
  /\ has "?" (_extract_video_id (raw_video_url vd)) = false
  /\ has_digit (raw_views_count vd) = true
  /\ raw_likes_count vd = "0" /\ raw_comments_count vd = "0" /\ raw_description vd = "".
Proof.
  intros cfg now video_element vd H. unfold extract_video_data_of_node in H.
  apply except_Exception_return in H as [H|[H _]]; [|discriminate].
  destruct (extract_video_url video_element) as [[url|]|e] eqn:Eu; cbn [bind] in H;
    [| |discriminate]; [|discriminate].
  destruct (url =? "")%string eqn:Hne; [discriminate|].
  destruct (extract_views_from_grid video_element) as [views|e] eqn:Ev; cbn [bind] in H;
    [|discriminate].
  destruct (extract_thumbnail video_element) as [thumbnail|e] eqn:Et; cbn [bind] in H;
    [|discriminate].
  injection H as <-. cbn [raw_video_url raw_views_count raw_likes_count
                         raw_comments_count raw_description].
  assert (Hm : contains "/video/" url = true).
  { unfold extract_video_url in Eu.
    apply except_Exception_return in Eu as [Eu|[Eu _]]; [|discriminate].
    exact (proj1 (extract_video_url_loop_result _ _ _ Eu)). }
  split.
  { exists {| el_video_url := Some url; el_views := views; el_thumbnail := thumbnail |}.
    split; [reflexivity|]. unfold extract_video_data. cbn [el_video_url].
    now rewrite Hne. }
  split; [exact Hm|].
  split.
  { destruct (marker_gives_id url Hm) as [id [_ [-> Hq]]]. exact Hq. }
  split; [now apply (extract_views_has_digit video_element)|].
  repeat split.
Qed.

(** ** More on [scrape_profile] *)

Lemma scrape_profile_try_true : forall cfg w fuel sc sc1,
  scrape_profile_try cfg w fuel sc = Some (Return true, sc1) ->
  data (crawl sc1) <> []
  /\ In CallSaveCsv (calls sc1)
  /\ start_browser_obs w = Return tt
  /\ navigate_obs w = Return true.
Proof.
  intros cfg w fuel sc sc1. unfold scrape_profile_try.
  destruct (start_browser_obs w) as [[]|]; [|discriminate].
  destruct (navigate_obs w) as [[|]|]; try discriminate.
  destruct (scroll_and_load_videos _ _ _) as [run|]; [|discriminate].
  destruct (scroll_result run) as [total|e]; [|discriminate].
  destruct (total =? 0)%nat; [discriminate|].
  destruct (elements_obs w); [|discriminate].
  destruct (crawl_loop _ _ _ _ _ _) as [st [e|]] eqn:E; [discriminate|].
  destruct (data st) as [|row rows] eqn:Hd; [discriminate|].
  intro H. injection H as <-. cbn [called crawl calls data]. rewrite Hd.
  repeat split; [discriminate|]. apply in_or_app. right. now left.
Qed.

(** X22.  A run of [scrape_profile] that ends never lets an [Exception]
    through: only an interrupt or a cancellation can come out of it.  It
    answers [True] only when the browser started, the profile was reached,
    there is at least one row in the exporter and the rows were saved. *)
Theorem scrape_profile_answers : forall cfg w fuel sc r sc',
  scrape_profile cfg w fuel sc = Some (r, sc') ->
  (forall e, r = Raise e -> is_Exception e = false)
  /\ (r = Return true ->
      data (crawl sc') <> []
      /\ In CallSaveCsv (calls sc')
      /\ start_browser_obs w = Return tt
      /\ navigate_obs w = Return true).
Proof.
  intros cfg w fuel sc r sc'. unfold scrape_profile.
  destruct (scrape_profile_try cfg w fuel sc) as [[r0 sc1]|] eqn:E; [|discriminate].
  unfold close_browser, called.
  assert (Hret : forall s,
    Some (except_Exception r0 (fun _ => Return false), s) = Some (r, sc') ->
    calls s = (calls sc1 ++ [CallCloseBrowser])%list -> crawl s = crawl sc1 ->
    (forall e, r = Raise e -> is_Exception e = false)
    /\ (r = Return true ->
        data (crawl sc') <> [] /\ In CallSaveCsv (calls sc')
        /\ start_browser_obs w = Return tt /\ navigate_obs w = Return true)).
  { intros s H Hc Hcr. injection H as <- <-. split.
    - intros e H. now apply except_Exception_default in H.
    - intro H. apply except_Exception_return in H as [->|[H _]]; [|discriminate].
      destruct (scrape_profile_try_true cfg w fuel sc sc1 E) as [Hd [Hs [Hb Hn]]].
      rewrite Hcr, Hc. repeat split; auto. apply in_or_app. now left. }
  destruct (close_obs w) as [e|]; [destruct (is_Exception e) eqn:He|].
  - intro H. now apply (Hret _ H).
  - intro H. injection H as <- <-. split; [|discriminate].
    intros e' H. now injection H as <-.
  - intro H. now apply (Hret _ H).
Qed.

Lemma scrape_profile_answers_witness :
  exists sc',
    scrape_profile sample_config one_video_world 10 new_scraper = Some (Return true, sc')
    /\ In CallSaveCsv (calls sc').
Proof.
  eexists. split; [vm_compute; reflexivity|].
  refine (proj1 (proj2 (proj2 (scrape_profile_answers sample_config one_video_world 10
                                 new_scraper (Return true) _ _) eq_refl))).
  vm_compute. reflexivity.
Defined.

(** ** More on [scroll_and_load_videos] *)

Lemma scroll_loop_terminates : forall max_videos feed B,
  (forall k i f, feed k = Scan i f -> i <= f /\ f <= B) ->
  (forall k i f i' f', feed k = Scan i f -> feed (S k) = Scan i' f' -> f <= i') ->
  forall fuel k s c,
    (forall i f, feed k = Scan i f -> c <= i) ->
    c <= B ->
    no_new_videos_count s <= 3 ->
    3 * (B - c) + (3 - no_new_videos_count s) < fuel ->
    exists run,
      scroll_loop max_videos feed fuel k s = Some run
      /\ scroll_scans run <= k + (3 * (B - c) + (3 - no_new_videos_count s)).
Proof.
  intros max_videos feed B Hbound Hsteady fuel.
  induction fuel as [|fuel IH]; intros k s c Hc HcB Hst Hfuel; [lia|].
  cbn [scroll_loop]. destruct (loop_guard max_videos s) eqn:Hg.
  2:{ eexists. split; [reflexivity|]. cbn [scroll_scans]. lia. }
  unfold loop_guard, max_no_new_videos in Hg. apply andb_true_iff in Hg as [_ Hg].
  apply Nat.ltb_lt in Hg.
  destruct (feed k) as [i f|e] eqn:Hk.
  2:{ eexists. split; [reflexivity|]. cbn [scroll_scans]. lia. }
  destruct (Hbound k i f Hk) as [Hif HfB]. pose proof (Hc i f eq_refl) as Hci.
  assert (Hnext : forall i' f', feed (S k) = Scan i' f' -> f <= i').
  { intros i' f' H'. now apply (Hsteady k i f i' f'). }
  unfold scan_update. destruct (i <? f)%nat eqn:Hlt.
  - apply Nat.ltb_lt in Hlt.
    destruct (IH (S k) {| videos_loaded := f; no_new_videos_count := 0 |} f Hnext HfB)
      as [run [Hrun Hsc]]; cbn [no_new_videos_count]; try lia.
    exists run. split; [exact Hrun|]. cbn [no_new_videos_count] in Hsc. lia.
  - apply Nat.ltb_ge in Hlt.
    destruct (IH (S k) {| videos_loaded := videos_loaded s;
                          no_new_videos_count := S (no_new_videos_count s) |} f Hnext HfB)
      as [run [Hrun Hsc]]; cbn [no_new_videos_count]; try lia.
    exists run. split; [exact Hrun|]. cbn [no_new_videos_count] in Hsc. lia.
Qed.

(** X23.  On a page whose counts are at most [B], do not go down when the
    page is scrolled and do not go down between two scans, the pagination
    loop comes to an end, whatever the cap, after at most [3 * B + 3]
    scans. *)
Theorem scroll_and_load_videos_terminates : forall max_videos feed B fuel,
  (forall k i f, feed k = Scan i f -> i <= f /\ f <= B) ->
  (forall k i f i' f', feed k = Scan i f -> feed (S k) = Scan i' f' -> f <= i') ->
  3 * B + 3 < fuel ->
  exists run,
    scroll_and_load_videos max_videos feed fuel = Some run
    /\ scroll_scans run <= 3 * B + 3.
Proof.
  intros max_videos feed B fuel Hbound Hsteady Hfuel. unfold scroll_and_load_videos.
  destruct (scroll_loop_terminates max_videos feed B Hbound Hsteady fuel 0
              {| videos_loaded := 0; no_new_videos_count := 0 |} 0)
    as [run [Hrun Hsc]]; cbn [no_new_videos_count]; try lia.
  exists run. split; [exact Hrun|]. cbn [no_new_videos_count] in Hsc. lia.
Qed.

Lemma scroll_and_load_videos_terminates_witness :
  exists run,
    scroll_and_load_videos 100 two_then_four 16 = Some run
    /\ scroll_scans run <= 3 * 4 + 3.
Proof.
  apply (scroll_and_load_videos_terminates 100 two_then_four 4 16).
  - intros [|k] i f H; injection H as <- <-; lia.
  - intros [|k] i f i' f' H H'; injection H as <- <-; injection H' as <- <-; lia.
  - lia.
Defined.

Lemma scroll_loop_result : forall max_videos feed,
  (forall k, exists i f, feed k = Scan i f) ->
  forall fuel k run,
    scroll_loop max_videos feed fuel k (state_after feed k) = Some run ->
    scroll_result run = Return (recorded feed (scroll_scans run))
    /\ k <= scroll_scans run.
Proof.
  intros max_videos feed Hscan fuel.
  induction fuel as [|fuel IH]; intros k run H; [discriminate|].
  cbn [scroll_loop] in H. destruct (loop_guard max_videos (state_after feed k)).
  - destruct (Hscan k) as [i [f Hk]]. rewrite Hk in H.
    rewrite (scan_update_state_after feed k i f Hk) in H.
    destruct (IH (S k) run H) as [Hr Hle]. split; [exact Hr|lia].
  - injection H as <-. cbn. split; [reflexivity|lia].
Qed.

Lemma recorded_is_last : forall feed,
  (forall k i f, feed k = Scan i f -> i <= f) ->
  (forall k i f i' f', feed k = Scan i f -> feed (S k) = Scan i' f' -> i' = f) ->
  (forall k, exists i f, feed k = Scan i f) ->
  forall n, (exists k, k < n /\ grew feed k = true) ->
    recorded feed n = measured feed (n - 1).
Proof.
  intros feed Hup Hsteady Hscan n. induction n as [|m IH]; intros [k [Hk Hg]]; [lia|].
  cbn [recorded]. replace (S m - 1) with m by lia.
  destruct (grew feed m) eqn:Hm; [reflexivity|].
  assert (Hkm : k < m).
  { destruct (Nat.eq_dec k m) as [->|]; [congruence|lia]. }
  rewrite IH by (exists k; auto).
  destruct m as [|m']; [lia|]. replace (S m' - 1) with m' by lia.
  destruct (Hscan m') as [i [f Hf]]. destruct (Hscan (S m')) as [i' [f' Hf']].
  pose proof (Hsteady m' i f i' f' Hf Hf') as ->.
  pose proof (Hup (S m') f f' Hf') as Hle.
  unfold grew in Hm. unfold measured. rewrite Hf' in *. rewrite Hf.
  apply Nat.ltb_ge in Hm. lia.
Qed.

(** X24.  On a page that changes only when it is scrolled, and then only
    by showing more, with no call raising: when the loop has ended and some
    scan has grown, the value returned is the count measured by the last
    scan, that is, the number of items visible at the end. *)
Theorem scroll_and_load_videos_returns_visible : forall max_videos feed fuel run,
  (forall k i f, feed k = Scan i f -> i <= f) ->
  (forall k i f i' f', feed k = Scan i f -> feed (S k) = Scan i' f' -> i' = f) ->
  (forall k, exists i f, feed k = Scan i f) ->
  scroll_and_load_videos max_videos feed fuel = Some run ->
  (exists k, k < scroll_scans run /\ grew feed k = true) ->
  scroll_result run = Return (measured feed (scroll_scans run - 1)).
Proof.
  intros max_videos feed fuel run Hup Hsteady Hscan Hrun Hgrew.
  destruct (scroll_loop_result max_videos feed Hscan fuel 0 run Hrun) as [Hr _].
  rewrite Hr. f_equal. now apply recorded_is_last.
Qed.

Lemma scroll_and_load_videos_returns_visible_witness :
  scroll_and_load_videos 100 two_then_four 10
  = Some {| scroll_result := Return 4; scroll_scans := 4; scroll_stalls := 3 |}
  /\ Return 4 = Return (measured two_then_four (4 - 1)).
Proof.
  split; [reflexivity|].
  refine (scroll_and_load_videos_returns_visible 100 two_then_four 10
            {| scroll_result := Return 4; scroll_scans := 4; scroll_stalls := 3 |}
            _ _ _ eq_refl _).
  - intros [|k] i f H; injection H as <- <-; lia.
  - intros [|k] i f i' f' H H'; injection H as <- <-; injection H' as <- <-; reflexivity.
  - intros [|k]; eexists; eexists; reflexivity.
  - exists 0. split; [cbn; lia|reflexivity].
Defined.

Lemma extract_video_data_of_node_sound_witness :
  exists vd,
    extract_video_data_of_node sample_config "2024-01-01T00:00:00" sample_grid_node
      = Return (Some vd)
    /\ raw_video_url vd = "https://www.tiktok.com/@u/video/123?lang=fr"
    /\ raw_views_count vd = "1.2K"
    /\ has "?" (_extract_video_id (raw_video_url vd)) = false.
Proof.
  eexists. split; [vm_compute; reflexivity|].
  split; [reflexivity|]. split; [reflexivity|].
  refine (proj1 (proj2 (proj2 (extract_video_data_of_node_sound sample_config
            "2024-01-01T00:00:00" sample_grid_node _ _)))).
  vm_compute. reflexivity.
Defined.
